(** * CMAt-Bot: the audit job lifecycle of [main.py]

    A shallow embedding of the Telegram audit bot: the two database tables
    ([users], [audit_requests]), the Redis list [audit_queue], the command
    handlers and the background worker [process_audit_queue], followed by
    the properties of the job lifecycle.

    Conventions of the embedding.
    - A Python [str] is held as the bytes of its UTF-8 encoding
      ([string]).  [int] reads the code points back and follows CPython on
      blanks and decimal digits, those of Unicode included (Unicode 14.0,
      the tables of CPython 3.11); the limit of 4300 digits that recent
      interpreters put on a conversion is not modelled.  [str.lower],
      [str.split] and [os.path.splitext] work on the bytes, which is what
      they do to ASCII characters.
    - Python integers and the [Integer] columns are [Z].
    - The database is PostgreSQL behind asyncpg (the URL is built with
      [postgresql+asyncpg], lines 40-45).  A [DateTime] column is a
      [TIMESTAMP WITHOUT TIME ZONE]; asyncpg refuses a time-zone-aware
      value as its parameter.
    - Every call that leaves the process (database, Redis, Telegram, file
      system, PDF renderer) may raise; what one run of a handler meets
      outside the process is given by a record: one boolean per call site,
      and the reading of the clock.
    - A handler is a program in the monad [Prog]: it threads the [World]
      (the persistent store, what the ORM session holds until the next
      commit, and the log of effects performed so far) and ends normally
      or with a raised exception.
    - Handlers run one at a time; calls to [logger] are left out. *)

From Stdlib Require Import ZArith NArith List String Ascii Bool Lia.
From Stdlib Require Import DecimalString DecimalZ.
Import ListNotations.

#[local] Open Scope string_scope.
#[local] Open Scope Z_scope.

(* ================================================================== *)
(** * Python builtins used by the bot *)
(* ================================================================== *)

Module Py.

(** The double quote character, for building literals that contain it. *)
Definition dq : string := String "034"%char EmptyString.

(** [Py_ISSPACE]: the blanks that [int] skips around a literal. *)
Definition is_space (c : ascii) : bool :=
  let n := nat_of_ascii c in
  (((9 <=? n) && (n <=? 13)) || (n =? 32))%nat.

Definition is_digit (c : ascii) : bool :=
  let n := nat_of_ascii c in ((48 <=? n) && (n <=? 57))%nat.

Definition is_upper (c : ascii) : bool :=
  let n := nat_of_ascii c in ((65 <=? n) && (n <=? 90))%nat.

(** [str.lower()], on the bytes: ASCII capitals are lowered, the bytes of
    other characters are kept. *)
Definition lower_char (c : ascii) : ascii :=
  if is_upper c then ascii_of_nat (nat_of_ascii c + 32) else c.

Fixpoint lower (s : string) : string :=
  match s with
  | EmptyString => EmptyString
  | String c r => String (lower_char c) (lower r)
  end.

(** Truth value of a [str]: non-empty. *)
Definition truthy (s : string) : bool :=
  match s with EmptyString => false | String _ _ => true end.

(** [s.startswith(p)]. *)
Definition startswith (s p : string) : bool := String.prefix p s.

(** [s.split(sep)] for a one-character separator. *)
Fixpoint split (sep : ascii) (s : string) : list string :=
  match s with
  | EmptyString => [EmptyString]
  | String c r =>
      if Ascii.eqb c sep then EmptyString :: split sep r
      else match split sep r with
           | h :: t => String c h :: t
           | [] => [String c EmptyString]
           end
  end.

(** [s.rfind(c)]: index of the last occurrence, [-1] when there is none. *)
Fixpoint rfind_from (c : ascii) (s : string) (i last : Z) : Z :=
  match s with
  | EmptyString => last
  | String a r => rfind_from c r (i + 1) (if Ascii.eqb a c then i else last)
  end.

Definition rfind (c : ascii) (s : string) : Z := rfind_from c s 0 (-1).

(** [p[i:i+1] != extsep] of [genericpath._splitext]. *)
Definition not_dot_at (p : string) (i : Z) : bool :=
  match String.get (Z.to_nat i) p with
  | Some a => negb (Ascii.eqb a ".")
  | None => true
  end.

(** The [while filenameIndex < dotIndex] loop of [_splitext]: [true] when
    it returns from inside the loop, that is when some character of the
    file name before the last dot is not a dot. *)
Fixpoint splitext_loop (p : string) (filenameIndex : Z) (n : nat) : bool :=
  match n with
  | O => false
  | S n' =>
      if not_dot_at p filenameIndex then true
      else splitext_loop p (filenameIndex + 1) n'
  end.

(** [os.path.splitext(p)] (posixpath: [sep = "/"], no [altsep]). *)
Definition splitext (p : string) : string * string :=
  let sepIndex := rfind "/" p in
  let dotIndex := rfind "." p in
  if (sepIndex <? dotIndex)
     && splitext_loop p (sepIndex + 1) (Z.to_nat (dotIndex - (sepIndex + 1)))
  then (substring 0 (Z.to_nat dotIndex) p,
        substring (Z.to_nat dotIndex) (String.length p - Z.to_nat dotIndex) p)
  else (p, EmptyString).

(** [s.replace(old, new)]: every non-overlapping occurrence, left to right.
    [skip] counts the characters of a matched occurrence still to drop. *)
Fixpoint replace_from (old new : string) (skip : nat) (s : string) : string :=
  match s with
  | EmptyString => EmptyString
  | String c r =>
      match skip with
      | S k => replace_from old new k r
      | O =>
          if String.prefix old s
          then new ++ replace_from old new (String.length old - 1) r
          else String c (replace_from old new 0 r)
      end
  end.

Definition replace (s old new : string) : string := replace_from old new 0 s.

(** The blanks before and after a literal, as [int] skips them. *)
Fixpoint lstrip (s : string) : string :=
  match s with
  | EmptyString => EmptyString
  | String c r => if is_space c then lstrip r else s
  end.

Fixpoint rstrip (s : string) : string :=
  match s with
  | EmptyString => EmptyString
  | String c r =>
      let r' := rstrip r in
      if is_space c && negb (truthy r') then EmptyString else String c r'
  end.

Definition strip (s : string) : string := rstrip (lstrip s).

(** The digits of an integer literal: at least one digit, single
    underscores allowed between digits.  Returns the digits alone. *)
Fixpoint group_digits (prev_digit : bool) (s : string) : option string :=
  match s with
  | EmptyString => if prev_digit then Some EmptyString else None
  | String c r =>
      if is_digit c then option_map (String c) (group_digits true r)
      else if Ascii.eqb c "_" && prev_digit then group_digits false r
      else None
  end.

(** [PyLong_FromString] in base ten, on the ASCII form of the literal:
    blanks, an optional sign, the digits, blanks. *)
Definition long_from_string (s : string) : option Z :=
  let t := strip s in
  let '(negative, body) :=
    match t with
    | String "-" r => (true, r)
    | String "+" r => (false, r)
    | _ => (false, t)
    end in
  match group_digits false body with
  | Some ds =>
      match NilEmpty.uint_of_string ds with
      | Some d => Some (if negative then - Z.of_uint d else Z.of_uint d)
      | None => None
      end
  | None => None
  end.

(** A continuation byte of UTF-8, and its six bits. *)
Definition continuation (c : ascii) : option N :=
  let n := N_of_ascii c in
  if ((128 <=? n) && (n <? 192))%N then Some (n - 128)%N else None.

(** A code point written in the shortest form ([low] is the least code
    point that needs as many bytes), in the code space, no surrogate. *)
Definition scalar (low ch : N) : bool :=
  ((low <=? ch) && (ch <=? 0x10FFFF)
   && negb ((0xD800 <=? ch) && (ch <=? 0xDFFF)))%N.

(** The code points of a [str], read from its UTF-8 bytes; [None] when
    the bytes are not the encoding of a string. *)
Fixpoint code_points (s : string) : option (list N) :=
  match s with
  | EmptyString => Some []
  | String a r =>
      let n := N_of_ascii a in
      if (n <? 128)%N then option_map (cons n) (code_points r)
      else if (n <? 192)%N then None
      else if (n <? 224)%N then
        match r with
        | String b r1 =>
            match continuation b with
            | Some x =>
                let ch := ((n - 192) * 64 + x)%N in
                if scalar 0x80 ch
                then option_map (cons ch) (code_points r1) else None
            | None => None
            end
        | EmptyString => None
        end
      else if (n <? 240)%N then
        match r with
        | String b (String c r2) =>
            match continuation b, continuation c with
            | Some x, Some y =>
                let ch := ((n - 224) * 4096 + x * 64 + y)%N in
                if scalar 0x800 ch
                then option_map (cons ch) (code_points r2) else None
            | _, _ => None
            end
        | _ => None
        end
      else if (n <? 248)%N then
        match r with
        | String b (String c (String d r3)) =>
            match continuation b, continuation c, continuation d with
            | Some x, Some y, Some z =>
                let ch := ((n - 240) * 262144 + x * 4096 + y * 64 + z)%N in
                if scalar 0x10000 ch
                then option_map (cons ch) (code_points r3) else None
            | _, _, _ => None
            end
        | _ => None
        end
      else None
  end.

(** [Py_UNICODE_ISSPACE] above ASCII. *)
Definition unicode_spaces : list N :=
  [0x85; 0xA0; 0x1680; 0x2000; 0x2001; 0x2002; 0x2003; 0x2004; 0x2005;
   0x2006; 0x2007; 0x2008; 0x2009; 0x200A; 0x2028; 0x2029; 0x202F; 0x205F;
   0x3000]%N.

Definition is_unicode_space (ch : N) : bool :=
  existsb (N.eqb ch) unicode_spaces.

(** The decimal digits of Unicode come in runs of ten, zero to nine; these
    are the zeros. *)
Definition decimal_zeros : list N :=
  [0x30; 0x660; 0x6F0; 0x7C0; 0x966; 0x9E6; 0xA66; 0xAE6; 0xB66; 0xBE6;
   0xC66; 0xCE6; 0xD66; 0xDE6; 0xE50; 0xED0; 0xF20; 0x1040; 0x1090;
   0x17E0; 0x1810; 0x1946; 0x19D0; 0x1A80; 0x1A90; 0x1B50; 0x1BB0;
   0x1C40; 0x1C50; 0xA620; 0xA8D0; 0xA900; 0xA9D0; 0xA9F0; 0xAA50;
   0xABF0; 0xFF10; 0x104A0; 0x10D30; 0x11066; 0x110F0; 0x11136; 0x111D0;
   0x112F0; 0x11450; 0x114D0; 0x11650; 0x116C0; 0x11730; 0x118E0;
   0x11950; 0x11C50; 0x11D50; 0x11DA0; 0x16A60; 0x16AC0; 0x16B50;
   0x1D7CE; 0x1D7D8; 0x1D7E2; 0x1D7EC; 0x1D7F6; 0x1E140; 0x1E2F0;
   0x1E950; 0x1FBF0]%N.

(** [Py_UNICODE_TODECIMAL]. *)
Definition to_decimal (ch : N) : option N :=
  option_map (fun zero => (ch - zero)%N)
    (find (fun zero => ((zero <=? ch) && (ch <? zero + 10))%N) decimal_zeros).

(** [_PyUnicode_TransformDecimalAndSpaceToASCII]: ASCII is kept, a blank
    becomes a space, a decimal digit its ASCII digit; anything else
    becomes a question mark, which ends the text. *)
Fixpoint ascii_decimal (chars : list N) : string :=
  match chars with
  | [] => EmptyString
  | ch :: rest =>
      if (ch <? 127)%N then String (ascii_of_N ch) (ascii_decimal rest)
      else if is_unicode_space ch then String " " (ascii_decimal rest)
      else match to_decimal ch with
           | Some d => String (ascii_of_N (48 + d)) (ascii_decimal rest)
           | None => "?"
           end
  end.

(** [int(s)] in base ten; [None] stands for [ValueError]. *)
Definition int (s : string) : option Z :=
  match code_points s with
  | Some chars => long_from_string (ascii_decimal chars)
  | None => None
  end.

(** [str(n)] for an integer. *)
Definition str (n : Z) : string := NilZero.string_of_int (Z.to_int n).

End Py.

(* ================================================================== *)
(** * Data model *)
(* ================================================================== *)

(** A [datetime]: naive when [tzinfo] is [None], aware otherwise (the zone
    is given by its offset from UTC in minutes). *)
Module DateTime.
Record t := mk {
  year : Z;
  month : Z;
  day : Z;
  hour : Z;
  minute : Z;
  second : Z;
  microsecond : Z;
  tzinfo : option Z
}.
(** [timezone.utc]. *)
Definition utc : Z := 0.
(** [datetime.now(timezone.utc)]: the reading of the clock, which is kept
    in UTC, as an aware value. *)
Definition now_utc (clock : t) : t :=
  mk (year clock) (month clock) (day clock) (hour clock) (minute clock)
     (second clock) (microsecond clock) (Some utc).
Definition aware (d : t) : bool :=
  match tzinfo d with Some _ => true | None => false end.
End DateTime.

(** Row of table [users]. *)
Module User.
Record t := mk {
  id : Z;
  telegram_id : Z;
  first_name : option string;
  last_name : option string;
  username : option string;
  available_audits : Z
}.
Definition with_available_audits (v : Z) (u : t) : t :=
  mk (id u) (telegram_id u) (first_name u) (last_name u) (username u) v.
End User.

(** Row of table [audit_requests] (lines 120-138).  The two timestamp
    columns are nullable [DateTime] columns; an object that was not
    given a value for them holds [None] until the insert fills in the
    default. *)
Module AuditRequest.
Record t := mk {
  id : Z;
  user_id : Z;
  file_name : string;
  file_path : string;
  report_path : string;
  status : string;
  created_at : option DateTime.t;
  updated_at : option DateTime.t
}.
Definition with_status (s : string) (r : t) : t :=
  mk (id r) (user_id r) (file_name r) (file_path r) (report_path r) s
     (created_at r) (updated_at r).
Definition with_id (i : Z) (r : t) : t :=
  mk i (user_id r) (file_name r) (file_path r) (report_path r) (status r)
     (created_at r) (updated_at r).
Definition with_timestamps (c u : option DateTime.t) (r : t) : t :=
  mk (id r) (user_id r) (file_name r) (file_path r) (report_path r)
     (status r) c u.
End AuditRequest.

Definition QUEUE_KEY : string := "audit_queue".

(** The persistent state: the two tables with their primary-key
    sequences, and the Redis list stored under [QUEUE_KEY] (the client is
    created with [decode_responses=True], so its entries are strings). *)
Record Store := mkStore {
  users : list User.t;
  users_id_seq : Z;
  audit_requests : list AuditRequest.t;
  audit_requests_id_seq : Z;
  audit_queue : list string
}.

Definition empty_store : Store := mkStore [] 0 [] 0 [].

(** What the ORM session holds between two commits: the changes made to
    its objects and not yet written (an update of [status] is sent with
    the new value of [updated_at], known when it is sent), and, once a
    flush has failed, the mark of its rolled-back transaction. *)
Inductive Write :=
| InsertUser (u : User.t)
| InsertRequest (r : AuditRequest.t)
| SetAvailableAudits (user_id : Z) (v : Z)
| SetStatus (request_id : Z) (s : string) (updated_at : option DateTime.t)
| FailedFlush.

(** Texts sent to the user, by the place that sends them. *)
Inductive Text :=
| TextWelcome (first_name : string)
| TextWelcomeAnonymous
| TextAbout
| TextFreeGranted
| TextFreeAlready
| TextBuyUsage
| TextBuyInvalid
| TextBuyOffer (quantity : Z)
| TextPaymentInvalid
| TextUserNotFound
| TextPaymentConfirmed
| TextCredited (quantity balance : Z)
| TextStatus (balance : Z)
| TextInvalidExtension
| TextNoCredits
| TextQueued (position_in_queue : Z)
| TextAuditNoFile
| TextBegin (file_name : string)
| TextReportReady
| TextDone
| TextFailed.

(** What a handler did to the outside world, in order. *)
Inductive Effect :=
| Committed (ws : list Write)
| Reply (t : Text)
| Answer (t : Text)
| SendMessage (chat_id : Z) (t : Text)
| SendDocument (chat_id : Z) (path : string) (caption : Text)
| GetFile (file_id : string)
| DownloadFile (remote_path : string)
| WriteFile (path : string) (data : string)
| WritePdf (src dst : string)
| Remove (path : string)
| MakeDirs (path : string)
| Sleep (seconds : Z).

Record World := mkWorld {
  store : Store;
  pending : list Write;
  log : list Effect
}.

Definition initial_world (s : Store) : World := mkWorld s [] [].

(** Exceptions, all of them subclasses of [Exception].  [DataError] is
    what SQLAlchemy raises when the driver cannot encode a parameter,
    [PendingRollbackError] what it raises when a session is used after a
    failed flush; [ExternalError] stands for any other failure of a call
    that leaves the process. *)
Inductive Exn :=
| ExternalError
| ValueError
| AttributeError
| DataError
| PendingRollbackError.

Inductive Result (A : Type) :=
| Return (a : A)
| Raise (e : Exn).
Arguments Return {A} a.
Arguments Raise {A} e.

(* ================================================================== *)
(** * The handler monad *)
(* ================================================================== *)

Definition Prog (A : Type) : Type := World -> World * Result A.

Definition ret {A} (a : A) : Prog A := fun w => (w, Return a).

Definition raise {A} (e : Exn) : Prog A := fun w => (w, Raise e).

Definition bind {A B} (m : Prog A) (k : A -> Prog B) : Prog B :=
  fun w =>
    match m w with
    | (w', Return a) => k a w'
    | (w', Raise e) => (w', Raise e)
    end.

Declare Scope prog_scope.
Delimit Scope prog_scope with prog.
Notation "x <- m ;; k" := (bind m (fun x => k))
  (at level 61, m at next level, right associativity) : prog_scope.
Notation "m ;; k" := (bind m (fun _ => k))
  (at level 61, right associativity) : prog_scope.
#[local] Open Scope prog_scope.

(** [try: body except Exception as e: handler e]. *)
Definition try_except {A} (body : Prog A) (handler : Exn -> Prog A) : Prog A :=
  fun w =>
    match body w with
    | (w', Return a) => (w', Return a)
    | (w', Raise e) => handler e w'
    end.

(** [try: body except (IndexError, ValueError): handler]. *)
Definition try_except_value_error {A} (body : Prog A) (handler : Prog A)
  : Prog A :=
  fun w =>
    match body w with
    | (w', Raise ValueError) => handler w'
    | other => other
    end.

Definition emit (e : Effect) : Prog unit :=
  fun w => (mkWorld (store w) (pending w) (log w ++ [e]), Return tt).

(** A call that leaves the process: it raises, or it happens. *)
Definition external (raises : bool) (e : Effect) : Prog unit :=
  if raises then raise ExternalError else emit e.

Definition get_store : Prog Store := fun w => (w, Return (store w)).

Definition put_store (s : Store) : Prog unit :=
  fun w => (mkWorld s (pending w) (log w), Return tt).

Definition add_pending (x : Write) : Prog unit :=
  fun w => (mkWorld (store w) (pending w ++ [x]) (log w), Return tt).

(* ================================================================== *)
(** * Database session *)
(* ================================================================== *)

(** The effect of one change on the tables: [INSERT] appends a row,
    [UPDATE ... WHERE id = ...] rewrites the rows with that primary key. *)
Definition apply_write (s : Store) (x : Write) : Store :=
  match x with
  | InsertUser u =>
      mkStore (users s ++ [u]) (Z.max (users_id_seq s) (User.id u))
              (audit_requests s) (audit_requests_id_seq s) (audit_queue s)
  | InsertRequest r =>
      mkStore (users s) (users_id_seq s)
              (audit_requests s ++ [r])
              (Z.max (audit_requests_id_seq s) (AuditRequest.id r))
              (audit_queue s)
  | SetAvailableAudits uid v =>
      mkStore (map (fun u => if User.id u =? uid
                             then User.with_available_audits v u else u)
                   (users s))
              (users_id_seq s)
              (audit_requests s) (audit_requests_id_seq s) (audit_queue s)
  | SetStatus rid st updated_at =>
      mkStore (users s) (users_id_seq s)
              (map (fun r => if AuditRequest.id r =? rid
                             then AuditRequest.with_timestamps
                                    (AuditRequest.created_at r)
                                    (match updated_at with
                                     | Some d => Some d
                                     | None => AuditRequest.updated_at r
                                     end)
                                    (AuditRequest.with_status st r)
                             else r)
                   (audit_requests s))
              (audit_requests_id_seq s) (audit_queue s)
  | FailedFlush => s
  end.

(** The changes of a transaction, applied in the order they were made. *)
Definition apply_writes (s : Store) (ws : list Write) : Store :=
  fold_left apply_write ws s.

(** The Python-side defaults of the timestamp columns (lines 130-135:
    [default] and [onupdate] are [lambda: datetime.now(timezone.utc)]),
    evaluated when the statement is sent: an insert fills the columns the
    object has no value for, an update of a request sets [updated_at]. *)
Definition with_defaults (clock : DateTime.t) (x : Write) : Write :=
  let default (d : option DateTime.t) :=
    match d with
    | Some d => Some d
    | None => Some (DateTime.now_utc clock)
    end in
  match x with
  | InsertRequest r =>
      InsertRequest (AuditRequest.with_timestamps
                       (default (AuditRequest.created_at r))
                       (default (AuditRequest.updated_at r)) r)
  | SetStatus rid st _ => SetStatus rid st (Some (DateTime.now_utc clock))
  | _ => x
  end.

(** asyncpg's encoder of a [timestamp] parameter: it subtracts the naive
    epoch from the value, which Python refuses for an aware value. *)
Definition timestamp_encodes (d : option DateTime.t) : bool :=
  match d with
  | Some d => negb (DateTime.aware d)
  | None => true
  end.

(** The parameters of the statement can be sent. *)
Definition encodes (x : Write) : bool :=
  match x with
  | InsertRequest r =>
      timestamp_encodes (AuditRequest.created_at r)
      && timestamp_encodes (AuditRequest.updated_at r)
  | SetStatus _ _ updated_at => timestamp_encodes updated_at
  | _ => true
  end.

(** The session's transaction was rolled back by a failed flush.  Until
    [rollback()] is called, which the bot never does, every use of the
    session raises. *)
Definition inactive (ws : list Write) : bool :=
  existsb (fun x => match x with FailedFlush => true | _ => false end) ws.

Definition session_active : Prog unit :=
  fun w =>
    if inactive (pending w) then (w, Raise PendingRollbackError)
    else (w, Return tt).

(** [await session.commit()]: the pending changes are sent and reach the
    tables in one transaction.  When a parameter cannot be encoded, or
    when the call fails for another reason, the transaction is rolled
    back, the pending changes are lost and the exception is raised. *)
Definition commit (raises : bool) (clock : DateTime.t) : Prog unit :=
  fun w =>
    if inactive (pending w) then (w, Raise PendingRollbackError)
    else if raises
    then (mkWorld (store w) [FailedFlush] (log w), Raise ExternalError)
    else
      let statements := map (with_defaults clock) (pending w) in
      if forallb encodes statements
      then (mkWorld (apply_writes (store w) statements) []
                    (log w ++ [Committed statements]),
            Return tt)
      else (mkWorld (store w) [FailedFlush] (log w), Raise DataError).

(** [async with get_db_session() as session: body]: the session is new on
    entry and closed on exit, also when [body] raises; what was not
    committed is discarded. *)
Definition with_session {A} (body : Prog A) : Prog A :=
  fun w =>
    let '(w', r) := body (mkWorld (store w) [] (log w)) in
    (mkWorld (store w') [] (log w'), r).

(** [session.get(AuditRequest, id)]. *)
Definition find_request (s : Store) (rid : Z) : option AuditRequest.t :=
  find (fun r => AuditRequest.id r =? rid) (audit_requests s).

(** [session.get(User, id)]. *)
Definition find_user (s : Store) (uid : Z) : option User.t :=
  find (fun u => User.id u =? uid) (users s).

(** [select(User).where(User.telegram_id == tid)], [.scalars().first()]. *)
Definition find_user_by_telegram_id (s : Store) (tid : Z) : option User.t :=
  find (fun u => User.telegram_id u =? tid) (users s).

Definition session_get_request (raises : bool) (rid : Z)
  : Prog (option AuditRequest.t) :=
  session_active ;;
  if raises then raise ExternalError
  else (s <- get_store ;; ret (find_request s rid)).

Definition session_get_user (raises : bool) (uid : Z)
  : Prog (option User.t) :=
  session_active ;;
  if raises then raise ExternalError
  else (s <- get_store ;; ret (find_user s uid)).

Definition select_user_by_telegram_id (raises : bool) (tid : Z)
  : Prog (option User.t) :=
  session_active ;;
  if raises then raise ExternalError
  else (s <- get_store ;; ret (find_user_by_telegram_id s tid)).

(** [session.add(User(...))]: the primary key is the next value of the
    sequence, visible on the object once the insert is committed. *)
Definition session_add_user (u : User.t) : Prog User.t :=
  s <- get_store ;;
  let u' := User.mk (users_id_seq s + 1) (User.telegram_id u)
              (User.first_name u) (User.last_name u) (User.username u)
              (User.available_audits u) in
  add_pending (InsertUser u') ;;
  ret u'.

(** [session.add(AuditRequest(...))]. *)
Definition session_add_request (r : AuditRequest.t) : Prog AuditRequest.t :=
  s <- get_store ;;
  let r' := AuditRequest.with_id (audit_requests_id_seq s + 1) r in
  add_pending (InsertRequest r') ;;
  ret r'.

(** [user.available_audits = v] on an object of the session; a value
    equal to the one loaded is no change and sends no [UPDATE]. *)
Definition set_available_audits (u : User.t) (v : Z) : Prog User.t :=
  if v =? User.available_audits u then ret u
  else (add_pending (SetAvailableAudits (User.id u) v) ;;
        ret (User.with_available_audits v u)).

(** [audit_request.status = s] on an object of the session, likewise. *)
Definition set_status (r : AuditRequest.t) (s : string)
  : Prog AuditRequest.t :=
  if (s =? AuditRequest.status r)%string then ret r
  else (add_pending (SetStatus (AuditRequest.id r) s None) ;;
        ret (AuditRequest.with_status s r)).

(* ================================================================== *)
(** * Redis list *)
(* ================================================================== *)

Definition with_queue (q : list string) (s : Store) : Store :=
  mkStore (users s) (users_id_seq s) (audit_requests s)
          (audit_requests_id_seq s) q.

(** [RPUSH]: append at the tail. *)
Definition queue_rpush (q : list string) (v : string) : list string :=
  q ++ [v].

(** [LPOP]: remove and return the head, [None] on an empty list. *)
Definition queue_lpop (q : list string) : option string * list string :=
  match q with
  | [] => (None, [])
  | v :: rest => (Some v, rest)
  end.

(** [await redis_client.rpush(QUEUE_KEY, n)]: the integer is stored as its
    decimal text. *)
Definition rpush (raises : bool) (n : Z) : Prog unit :=
  if raises then raise ExternalError
  else (s <- get_store ;;
        put_store (with_queue (queue_rpush (audit_queue s) (Py.str n)) s)).

(** [await redis_client.lpop(QUEUE_KEY)]. *)
Definition lpop (raises : bool) : Prog (option string) :=
  if raises then raise ExternalError
  else (s <- get_store ;;
        let '(v, q) := queue_lpop (audit_queue s) in
        put_store (with_queue q s) ;;
        ret v).

(** [await redis_client.llen(QUEUE_KEY)]. *)
Definition llen (raises : bool) : Prog Z :=
  if raises then raise ExternalError
  else (s <- get_store ;; ret (Z.of_nat (List.length (audit_queue s)))).

(* ================================================================== *)
(** * Report generation *)
(* ================================================================== *)

(** Left padding with zeros up to [width] characters. *)
Fixpoint zeros (n : nat) : string :=
  match n with
  | O => EmptyString
  | S k => String "0" (zeros k)
  end.

Definition zfill (width : nat) (s : string) : string :=
  zeros (width - String.length s) ++ s.

(** [d.strftime('%d.%m.%Y')]: day and month on two digits; the C library
    of Linux does not pad the year. *)
Definition strftime_dmY (d : DateTime.t) : string :=
  zfill 2 (Py.str (DateTime.day d)) ++ "."
  ++ zfill 2 (Py.str (DateTime.month d)) ++ "."
  ++ Py.str (DateTime.year d).

(** The three literal pieces of the f-string of [generate_html_report],
    around its two placeholders. *)
Definition report_head : string :=
  "
    <!DOCTYPE html>
    <html lang=" ++ Py.dq ++ "ru" ++ Py.dq ++ ">
    <head>
        <meta charset=" ++ Py.dq ++ "UTF-8" ++ Py.dq ++ ">
        <title>Отчет по аудиту смарт-контракта</title>
        <style>
            body { font-family: Arial, sans-serif; margin: 20px; }
            h1, h2, h3 { color: #2E86C1; }
            .page { page-break-after: always; }
            .title-page { text-align: center; margin-top: 100px; }
            .content { margin-top: 50px; }
            .section { margin-bottom: 40px; }
            ul { list-style-type: disc; margin-left: 20px; }
        </style>
    </head>
    <body>
        <!-- Титульный лист -->
        <div class=" ++ Py.dq ++ "page title-page" ++ Py.dq ++ ">
            <h1>Отчет по аудиту смарт-контракта</h1>
            <p>Дата: ".

Definition report_middle : string :=
  "</p>
            <p>Контракт: ".

Definition report_tail : string :=
  "</p>
        </div>

        <!-- О команде -->
        <div class=" ++ Py.dq ++ "page content" ++ Py.dq ++ ">
            <h2>О нашей команде</h2>
            <p>Мы — команда опытных аудиторов, специализирующихся на проверке смарт-контрактов на Solidity. 🛡️</p>
            <p>Наша миссия — обеспечить безопасность и надежность ваших блокчейн-проектов. 🚀</p>
            <p>Мы используем современные инструменты и методологии для проведения тщательного анализа кода, выявления уязвимостей и предоставления рекомендаций по улучшению. 🧰</p>
        </div>

        <!-- Цели и задачи аудита -->
        <div class=" ++ Py.dq ++ "page content" ++ Py.dq ++ ">
            <h2>Цели и задачи аудита</h2>
            <p>Основные цели аудита смарт-контракта:</p>
            <ul>
                <li>Идентификация потенциальных уязвимостей и ошибок в коде. 🔍</li>
                <li>Оценка безопасности логики контракта. 🛡️</li>
                <li>Предоставление рекомендаций по улучшению и оптимизации кода. 📝</li>
                <li>Обеспечение соответствия контракта лучшим практикам разработки. 📈</li>
            </ul>
        </div>

        <!-- Поиск уязвимостей и рекомендации -->
        <div class=" ++ Py.dq ++ "page content" ++ Py.dq ++ ">
            <h2>Поиск уязвимостей и рекомендации</h2>
            <p>В ходе аудита были проведены следующие проверки:</p>
            <ul>
                <li>Анализ кода на наличие стандартных уязвимостей, таких как reentrancy, integer overflow/underflow, неправильное управление доступом и другие. ⚠️</li>
                <li>Оценка логики смарт-контракта для выявления потенциальных ошибок и недочетов в бизнес-логике. 🧠</li>
                <li>Проверка на соответствие лучшим практикам разработки, включая использование проверенных библиотек и шаблонов проектирования. 📚</li>
                <li>Тестирование функциональности контракта с использованием автоматизированных инструментов и ручных проверок. 🛠️</li>
            </ul>
            <p>Рекомендации:</p>
            <ul>
                <li>Использовать последние версии Solidity для повышения безопасности и производительности. 📦</li>
                <li>Добавить дополнительные проверки ввода данных для предотвращения некорректных операций. ✅</li>
                <li>Рассмотреть возможность проведения регулярных аудитов и тестирования после внесения изменений в код. 🔄</li>
                <li>Внедрить системы мониторинга и оповещений для своевременного обнаружения аномалий и потенциальных атак. 📊</li>
            </ul>
        </div>

        <!-- Тестирование и верификация -->
        <div class=" ++ Py.dq ++ "page content" ++ Py.dq ++ ">
            <h2>Тестирование и верификация</h2>
            <p>Мы провели обширное тестирование смарт-контракта, включая:</p>
            <ul>
                <li>Юнит-тестирование всех функций контракта с использованием фреймворков для тестирования Solidity. 🧪</li>
                <li>Интеграционное тестирование для проверки взаимодействия контракта с другими смарт-контрактами и системами. 🔗</li>
                <li>Формальная верификация для доказательства корректности выполнения ключевых функций контракта. 📜</li>
                <li>Стресс-тестирование для оценки производительности и устойчивости контракта под высокой нагрузкой. 🚀</li>
            </ul>
        </div>

        <!-- Безопасность и соответствие стандартам -->
        <div class=" ++ Py.dq ++ "page content" ++ Py.dq ++ ">
            <h2>Безопасность и соответствие стандартам</h2>
            <p>Наш аудит включает проверку соответствия контракта следующим стандартам и рекомендациям:</p>
            <ul>
                <li>ERC-20 и ERC-721 стандарты для токенов, обеспечивающие совместимость и безопасность. 🪙</li>
                <li>Использование OpenZeppelin библиотек для повышения надежности и безопасности кода. 🛡️</li>
                <li>Следование рекомендациям по безопасности от Ethereum и других блокчейн-сообществ. 📖</li>
            </ul>
        </div>

        <!-- Заключение -->
        <div class=" ++ Py.dq ++ "page content" ++ Py.dq ++ ">
            <h2>Заключение</h2>
            <p>Ваш смарт-контракт прошел тщательную проверку и не содержит критических уязвимостей. 🎉</p>
            <p>Однако, для повышения общей безопасности и эффективности вашего проекта, мы рекомендуем следовать нашим рекомендациям. 🛠️</p>
            <p>Мы готовы предоставить дополнительную поддержку и ответить на любые вопросы, связанные с вашим смарт-контрактом. 🤝</p>
            <p>Спасибо за использование нашего сервиса! 😊</p>
        </div>
    </body>
    </html>
    ".

(** [generate_html_report(file_name)] (lines 446-543); the clock it reads
    with [datetime.now(timezone.utc)] is the argument [now]. *)
Definition generate_html_report (now : DateTime.t) (file_name : string)
  : string :=
  report_head ++ strftime_dmY (DateTime.now_utc now) ++ report_middle
  ++ file_name ++ report_tail.

(* ================================================================== *)
(** * Telegram updates and external calls *)
(* ================================================================== *)

(** An incoming message: sender, attached document, command arguments. *)
Module Message.
Record t := mk {
  from_user_id : Z;
  from_user_first_name : option string;
  from_user_last_name : option string;
  from_user_username : option string;
  document_file_name : string;
  args : string
}.
End Message.

(** A pressed inline button. *)
Module CallbackQuery.
Record t := mk {
  from_user_id : Z;
  data : string
}.
End CallbackQuery.

(** What one run of a command handler meets outside the process: which
    calls raise, and the reading of the clock. *)
Record Faults := mkFaults {
  select_user_raises : bool;
  create_commit_raises : bool;
  commit_raises : bool;
  reply_raises : bool;
  answer_raises : bool;
  send_message_raises : bool;
  makedirs_uploads_raises : bool;
  makedirs_reports_raises : bool;
  rpush_raises : bool;
  llen_raises : bool;
  clock : DateTime.t
}.

(** A reading of the clock. *)
Definition noon_17_may : DateTime.t :=
  DateTime.mk 2024 5 17 12 0 0 0 None.

(** No call raises. *)
Definition no_faults : Faults :=
  mkFaults false false false false false false false false false false
           noon_17_may.

(** [os.path.join(a, b)]. *)
Definition path_join (a b : string) : string :=
  if Py.startswith b "/" then b
  else if negb (Py.truthy a) then b
  else if Ascii.eqb (match String.get (String.length a - 1) a with
                     | Some c => c
                     | None => "/"%char
                     end) "/"
       then a ++ b
       else a ++ "/" ++ b.

(* ================================================================== *)
(** * Command handlers *)
(* ================================================================== *)

(** [get_or_create_user] (lines 143-158). *)
Definition get_or_create_user (f : Faults) (message : Message.t)
  : Prog User.t :=
  let telegram_id := Message.from_user_id message in
  user <- select_user_by_telegram_id (select_user_raises f) telegram_id ;;
  match user with
  | Some user => ret user
  | None =>
      user <- session_add_user
                (User.mk 0 telegram_id
                   (Message.from_user_first_name message)
                   (Message.from_user_last_name message)
                   (Message.from_user_username message)
                   0) ;;
      commit (create_commit_raises f) (clock f) ;;
      ret user
  end.

(** [cmd_start] (lines 161-179). *)
Definition cmd_start (f : Faults) (message : Message.t) : Prog unit :=
  with_session (
    user <- get_or_create_user f message ;;
    commit (commit_raises f) (clock f)) ;;
  match Message.from_user_first_name message with
  | Some user_first_name =>
      if Py.truthy user_first_name
      then external (reply_raises f) (Reply (TextWelcome user_first_name))
      else external (reply_raises f) (Reply TextWelcomeAnonymous)
  | None => external (reply_raises f) (Reply TextWelcomeAnonymous)
  end.

(** [cmd_about] (lines 182-200). *)
Definition cmd_about (f : Faults) (message : Message.t) : Prog unit :=
  external (reply_raises f) (Reply TextAbout).

(** [cmd_free] (lines 203-218). *)
Definition cmd_free (f : Faults) (message : Message.t) : Prog unit :=
  with_session (
    user <- get_or_create_user f message ;;
    if User.available_audits user =? 0 then
      user <- set_available_audits user (User.available_audits user + 2) ;;
      commit (commit_raises f) (clock f) ;;
      external (reply_raises f) (Reply TextFreeGranted)
    else
      external (reply_raises f) (Reply TextFreeAlready)).

(** [cmd_buy] (lines 221-255, defined a second time, identically, at
    lines 578-612). *)
Definition cmd_buy (f : Faults) (message : Message.t) : Prog unit :=
  let args := Message.args message in
  if negb (Py.truthy args) then
    external (reply_raises f) (Reply TextBuyUsage)
  else
    match Py.int args with
    | None => external (reply_raises f) (Reply TextBuyInvalid)
    | Some quantity =>
        if quantity <=? 0 then
          external (reply_raises f) (Reply TextBuyInvalid)
        else
          external (reply_raises f) (Reply (TextBuyOffer quantity))
    end.

(** The filter under which [callback_check_payment] is registered. *)
Definition check_payment_filter (c : CallbackQuery.t) : bool :=
  Py.truthy (CallbackQuery.data c)
  && Py.startswith (CallbackQuery.data c) "check_payment:".

(** [_, quantity_str = data.split(":")] and [int(quantity_str)]; a wrong
    number of fields makes the unpacking raise [ValueError]. *)
Definition parse_check_payment (data : string) : Prog Z :=
  match Py.split ":" data with
  | [_; quantity_str] =>
      match Py.int quantity_str with
      | Some quantity => ret quantity
      | None => raise ValueError
      end
  | _ => raise ValueError
  end.

(** [callback_check_payment] (lines 258-287, defined a second time,
    identically, at lines 546-575). *)
Definition callback_check_payment (f : Faults)
    (callback_query : CallbackQuery.t) : Prog unit :=
  parsed <- try_except_value_error
              (quantity <- parse_check_payment
                             (CallbackQuery.data callback_query) ;;
               ret (Some quantity))
              (external (answer_raises f) (Answer TextPaymentInvalid) ;;
               ret None) ;;
  match parsed with
  | None => ret tt
  | Some quantity =>
      credited <- with_session (
        user <- select_user_by_telegram_id (select_user_raises f)
                  (CallbackQuery.from_user_id callback_query) ;;
        match user with
        | None =>
            external (answer_raises f) (Answer TextUserNotFound) ;;
            ret None
        | Some user =>
            user <- set_available_audits user
                      (User.available_audits user + quantity) ;;
            commit (commit_raises f) (clock f) ;;
            ret (Some user)
        end) ;;
      match credited with
      | None => ret tt
      | Some user =>
          external (answer_raises f) (Answer TextPaymentConfirmed) ;;
          external (send_message_raises f)
            (SendMessage (CallbackQuery.from_user_id callback_query)
               (TextCredited quantity (User.available_audits user)))
      end
  end.

(** The dispatcher runs the handler on the queries its filter accepts. *)
Definition on_callback_query (f : Faults) (c : CallbackQuery.t)
  : Prog unit :=
  if check_payment_filter c then callback_check_payment f c else ret tt.

(** [cmd_status] (lines 290-303). *)
Definition cmd_status (f : Faults) (message : Message.t) : Prog unit :=
  user <- with_session (
    user <- get_or_create_user f message ;;
    commit (commit_raises f) (clock f) ;;
    ret user) ;;
  external (reply_raises f) (Reply (TextStatus (User.available_audits user))).

(** [cmd_audit] (lines 306-357); [unique_id] is the value of
    [uuid.uuid4().hex]. *)
Definition cmd_audit (f : Faults) (unique_id : string) (message : Message.t)
  : Prog unit :=
  let file_name := Message.document_file_name message in
  let file_extension := Py.lower (snd (Py.splitext file_name)) in
  if negb (file_extension =? ".sol")%string then
    external (reply_raises f) (Reply TextInvalidExtension)
  else
    position <- with_session (
      user <- get_or_create_user f message ;;
      if User.available_audits user <=? 0 then
        external (reply_raises f) (Reply TextNoCredits) ;;
        ret None
      else
        user <- set_available_audits user (User.available_audits user - 1) ;;
        let uploads_dir := "uploads" in
        let reports_dir := "reports" in
        external (makedirs_uploads_raises f) (MakeDirs uploads_dir) ;;
        external (makedirs_reports_raises f) (MakeDirs reports_dir) ;;
        let file_path := path_join uploads_dir (unique_id ++ ".sol") in
        let report_html_path :=
          path_join reports_dir (unique_id ++ "_report.html") in
        audit_request <- session_add_request
                           (AuditRequest.mk 0 (User.id user) file_name
                              file_path report_html_path "queued"
                              None None) ;;
        commit (commit_raises f) (clock f) ;;
        rpush (rpush_raises f) (AuditRequest.id audit_request) ;;
        queue_length <- llen (llen_raises f) ;;
        let position_in_queue := queue_length in
        ret (Some position_in_queue)) ;;
    match position with
    | None => ret tt
    | Some position_in_queue =>
        external (reply_raises f) (Reply (TextQueued position_in_queue))
    end.

(** [audit_no_file] (lines 360-366). *)
Definition audit_no_file (f : Faults) (message : Message.t) : Prog unit :=
  external (reply_raises f) (Reply TextAuditNoFile).

(* ================================================================== *)
(** * Background worker *)
(* ================================================================== *)

(** What one pass of the worker loop meets outside the process: which
    calls raise, the clock, and what Telegram returns for the file. *)
Record WorkerEnv := mkWorkerEnv {
  lpop_raises : bool;
  get_request_raises : bool;
  commit_processing_raises : bool;
  get_user_raises : bool;
  send_begin_raises : bool;
  get_file_raises : bool;
  download_file_raises : bool;
  write_source_raises : bool;
  write_report_raises : bool;
  write_pdf_raises : bool;
  send_document_raises : bool;
  commit_completed_raises : bool;
  remove_source_raises : bool;
  remove_report_raises : bool;
  remove_final_raises : bool;
  send_done_raises : bool;
  commit_failed_raises : bool;
  send_failed_raises : bool;
  now : DateTime.t;
  remote_file_path : string;
  downloaded_bytes : string
}.

(** [user.telegram_id]; [session.get] returns [None] for a missing row,
    on which the attribute access raises. *)
Definition telegram_id_of (user : option User.t) : Prog Z :=
  match user with
  | Some u => ret (User.telegram_id u)
  | None => raise AttributeError
  end.

(** [int(audit_request_id)]. *)
Definition int_of_entry (audit_request_id : string) : Prog Z :=
  match Py.int audit_request_id with
  | Some n => ret n
  | None => raise ValueError
  end.

(** The body of the outer [try] of [process_audit_queue] (lines 381-430;
    the function is defined a second time, identically, at lines
    615-689). *)
Definition audit_steps (env : WorkerEnv) (audit_request : AuditRequest.t)
    (user : option User.t) : Prog unit :=
  let file_name := AuditRequest.file_name audit_request in
  let file_path := AuditRequest.file_path audit_request in
  let report_path := AuditRequest.report_path audit_request in
  chat_id <- telegram_id_of user ;;
  external (send_begin_raises env) (SendMessage chat_id (TextBegin file_name)) ;;
  external (get_file_raises env) (GetFile file_path) ;;
  external (download_file_raises env) (DownloadFile (remote_file_path env)) ;;
  external (write_source_raises env)
    (WriteFile file_path (downloaded_bytes env)) ;;
  let html_content := generate_html_report (now env) file_name in
  external (write_report_raises env) (WriteFile report_path html_content) ;;
  report_final_path <-
    try_except
      (external (write_pdf_raises env)
         (WritePdf report_path (Py.replace report_path ".html" ".pdf")) ;;
       ret (Py.replace report_path ".html" ".pdf"))
      (fun pdf_error => ret report_path) ;;
  chat_id <- telegram_id_of user ;;
  external (send_document_raises env)
    (SendDocument chat_id report_final_path TextReportReady) ;;
  audit_request <- set_status audit_request "completed" ;;
  commit (commit_completed_raises env) (now env) ;;
  try_except
    (external (remove_source_raises env) (Remove file_path) ;;
     external (remove_report_raises env) (Remove report_path) ;;
     external (remove_final_raises env) (Remove report_final_path))
    (fun cleanup_error => ret tt) ;;
  chat_id <- telegram_id_of user ;;
  external (send_done_raises env) (SendMessage chat_id TextDone).

(** The [except Exception as e] clause of the outer [try] (lines 432-441).
    Its first statement formats [audit_request.id] into the log message;
    after a failed flush the session has expired the object, and reading
    the attribute uses the session. *)
Definition audit_failed (env : WorkerEnv) (audit_request : AuditRequest.t)
    (user : option User.t) (e : Exn) : Prog unit :=
  session_active ;;
  audit_request <- set_status audit_request "failed" ;;
  commit (commit_failed_raises env) (now env) ;;
  chat_id <- telegram_id_of user ;;
  external (send_failed_raises env) (SendMessage chat_id TextFailed).

(** The outer [try] statement as a whole. *)
Definition audit_job (env : WorkerEnv) (audit_request : AuditRequest.t)
    (user : option User.t) : Prog unit :=
  try_except (audit_steps env audit_request user)
             (audit_failed env audit_request user).

(** The [async with get_db_session()] block run for a popped entry. *)
Definition process_entry (env : WorkerEnv) (audit_request_id : string)
  : Prog unit :=
  with_session (
    request_id <- int_of_entry audit_request_id ;;
    audit_request <- session_get_request (get_request_raises env) request_id ;;
    match audit_request with
    | Some audit_request =>
        if (AuditRequest.status audit_request =? "queued")%string then
          audit_request <- set_status audit_request "processing" ;;
          commit (commit_processing_raises env) (now env) ;;
          user <- session_get_user (get_user_raises env)
                    (AuditRequest.user_id audit_request) ;;
          audit_job env audit_request user
        else ret tt
    | None => ret tt
    end).

(** One turn of the [while True] loop (lines 371-443). *)
Definition worker_pass (env : WorkerEnv) : Prog unit :=
  audit_request_id <- lpop (lpop_raises env) ;;
  match audit_request_id with
  | Some audit_request_id =>
      if Py.truthy audit_request_id
      then process_entry env audit_request_id
      else emit (Sleep 5)
  | None => emit (Sleep 5)
  end.

(** [process_audit_queue]: the loop, run for as many turns as there are
    environments.  [Return tt] means the loop is still running after
    them; [Raise e] means an exception left the loop and ended it. *)
Fixpoint process_audit_queue (envs : list WorkerEnv) : Prog unit :=
  match envs with
  | [] => ret tt
  | env :: rest => worker_pass env ;; process_audit_queue rest
  end.

(* ================================================================== *)
(** * Vocabulary of the properties *)
(* ================================================================== *)

#[local] Open Scope list_scope.

(** The string holds decimal digits only. *)
Fixpoint all_digits (s : string) : bool :=
  match s with
  | EmptyString => true
  | String c r => Py.is_digit c && all_digits r
  end.

(** Every byte is an ASCII character other than DEL. *)
Fixpoint plain_ascii (s : string) : bool :=
  match s with
  | EmptyString => true
  | String c r => (N_of_ascii c <? 127)%N && plain_ascii r
  end.

(** The extension test of [cmd_audit]. *)
Definition accepted_extension (file_name : string) : bool :=
  (Py.lower (snd (Py.splitext file_name)) =? ".sol")%string.

(** Sample data used to instantiate the statements below. *)
Definition alice : User.t := User.mk 1 77 (Some "Alice") None None 1.
Definition alice_broke : User.t := User.mk 1 77 (Some "Alice") None None 0.
Definition alice_sol : Message.t :=
  Message.mk 77 (Some "Alice") None None "contract.sol" "".
Definition alice_txt : Message.t :=
  Message.mk 77 (Some "Alice") None None "contract.txt" "".
Definition store_alice : Store := mkStore [alice] 1 [] 0 [].
Definition store_alice_broke : Store := mkStore [alice_broke] 1 [] 0 [].

(** A use of the Redis list by the bot: [cmd_audit] pushes the id of a new
    request, the worker pops. *)
Inductive QueueOp :=
| Enqueue (id : Z)
| Dequeue.

(** Runs the operations in order; returns the entries popped, in order. *)
Fixpoint run_queue_ops (ops : list QueueOp) : Prog (list string) :=
  match ops with
  | [] => ret []
  | Enqueue id :: rest => rpush false id ;; run_queue_ops rest
  | Dequeue :: rest =>
      v <- lpop false ;;
      out <- run_queue_ops rest ;;
      ret (match v with Some s => s :: out | None => out end)
  end.

(** The ids pushed by a sequence of operations, in order. *)
Fixpoint enqueued (ops : list QueueOp) : list Z :=
  match ops with
  | [] => []
  | Enqueue id :: rest => id :: enqueued rest
  | Dequeue :: rest => enqueued rest
  end.

(** A sample interleaving of pushes and pops. *)
Definition queue_demo_ops : list QueueOp :=
  [Enqueue 4; Enqueue 9; Dequeue; Enqueue 2; Dequeue; Dequeue].

(** Two more readings of the clock: later on the same day, and on the
    next day. *)
Definition late_17_may : DateTime.t :=
  DateTime.mk 2024 5 17 23 59 59 999999 None.
Definition noon_18_may : DateTime.t :=
  DateTime.mk 2024 5 18 12 0 0 0 None.

(** The change moves request [rid] to [processing]. *)
Definition starts_processing (rid : Z) (x : Write) : bool :=
  match x with
  | SetStatus i st _ => (st =? "processing")%string && (i =? rid)
  | _ => false
  end.

(** Number of commits in a log that move request [rid] to [processing]. *)
Fixpoint processing_commits (rid : Z) (l : list Effect) : nat :=
  match l with
  | [] => O
  | Committed ws :: rest =>
      (if existsb (starts_processing rid) ws then 1 else 0)
      + processing_commits rid rest
  | _ :: rest => processing_commits rid rest
  end%nat.

(** The request is missing or its status is not [queued]. *)
Definition not_queued (s : Store) (rid : Z) : Prop :=
  match find_request s rid with
  | Some r => AuditRequest.status r <> "queued"%string
  | None => True
  end.

(** [env_with b g d f]: only the begin notification ([b]), the file
    lookup ([g]), the success notification ([d]) and the failure
    notification ([f]) may raise. *)
Definition env_with (send_begin get_file send_done send_failed : bool)
  : WorkerEnv :=
  mkWorkerEnv false false false false send_begin get_file false false false
              false false false false false false send_done false send_failed
              noon_17_may "documents/file_1.sol" "contract C {}".

(** Nothing raises. *)
Definition calm : WorkerEnv := env_with false false false false.

(** Two queued requests of the same user, as rows of the table. *)
Definition request_1 : AuditRequest.t :=
  AuditRequest.mk 1 1 "contract.sol" "uploads/ab12.sol"
                  "reports/ab12_report.html" "queued"
                  (Some noon_17_may) (Some noon_17_may).
Definition request_2 : AuditRequest.t :=
  AuditRequest.mk 2 1 "token.sol" "uploads/cd34.sol"
                  "reports/cd34_report.html" "queued"
                  (Some noon_17_may) (Some late_17_may).

(** One job waiting; the same with its id queued twice; two jobs. *)
Definition store_job : Store :=
  mkStore [alice_broke] 1 [request_1] 1 ["1"%string].
Definition store_job_twice : Store :=
  mkStore [alice_broke] 1 [request_1] 1 ["1"%string; "1"%string].
Definition store_two_jobs : Store :=
  mkStore [alice_broke] 1 [request_1; request_2] 2 ["1"%string; "2"%string].


(** The id of a [completed] request still queued twice. *)
Definition store_done_twice : Store :=
  apply_write store_job_twice (SetStatus 1 "completed" None).

(** The transactions committed in a log, in order. *)
Fixpoint commits (l : list Effect) : list (list Write) :=
  match l with
  | [] => []
  | Committed ws :: rest => ws :: commits rest
  | _ :: rest => commits rest
  end.





(** What can happen to the bot: a command or callback handled, or a turn
    of the worker loop.  An exception that leaves a handler is logged by
    the dispatcher and the bot goes on. *)
Inductive Action :=
| Start (f : Faults) (m : Message.t)
| About (f : Faults) (m : Message.t)
| Free (f : Faults) (m : Message.t)
| Buy (f : Faults) (m : Message.t)
| CheckPayment (f : Faults) (c : CallbackQuery.t)
| Status (f : Faults) (m : Message.t)
| Audit (f : Faults) (unique_id : string) (m : Message.t)
| AuditNoFile (f : Faults) (m : Message.t)
| WorkerTurn (env : WorkerEnv).

(** The program run by an action. *)
Definition perform (a : Action) : Prog unit :=
  match a with
  | Start f m => cmd_start f m
  | About f m => cmd_about f m
  | Free f m => cmd_free f m
  | Buy f m => cmd_buy f m
  | CheckPayment f c => on_callback_query f c
  | Status f m => cmd_status f m
  | Audit f unique_id m => cmd_audit f unique_id m
  | AuditNoFile f m => audit_no_file f m
  | WorkerTurn env => worker_pass env
  end.

(** The world after a history of actions. *)
Fixpoint run (acts : list Action) (w : World) : World :=
  match acts with
  | [] => w
  | a :: rest => run rest (fst (perform a w))
  end.



(** A confirmation whose payload carries a negative quantity. *)
Definition negative_confirmation : CallbackQuery.t :=
  CallbackQuery.mk 77 "check_payment:-5".

(** No stored balance is negative. *)
Definition credits_nonneg (s : Store) : Prop :=
  forall u, In u (users s) -> 0 <= User.available_audits u.

(** The quantity carried by the payload of a confirmation, if any. *)
Definition confirmed_quantity (c : CallbackQuery.t) : option Z :=
  match Py.split ":" (CallbackQuery.data c) with
  | [_; quantity_str] => Py.int quantity_str
  | _ => None
  end.

(** An action other than a confirmation of a negative quantity. *)
Definition no_negative_confirmation (a : Action) : Prop :=
  match a with
  | CheckPayment _ c =>
      match confirmed_quantity c with
      | Some q => 0 <= q
      | None => True
      end
  | _ => True
  end.

(** The row [get_or_create_user] inserts for the sender of [m] when the
    sender has none (lines 148-154). *)
Definition new_user (s : Store) (m : Message.t) : User.t :=
  User.mk (users_id_seq s + 1) (Message.from_user_id m)
    (Message.from_user_first_name m) (Message.from_user_last_name m)
    (Message.from_user_username m) 0.

(** The payload [cmd_buy] attaches to its confirmation button,
    [f"check_payment:{quantity}"] (line 247). *)
Definition check_payment_data (quantity : Z) : string :=
  ("check_payment:" ++ Py.str quantity)%string.

(** A sender unknown to the store. *)
Definition bob_sol : Message.t :=
  Message.mk 88 (Some "Bob") None None "token.sol" "3".

(** The character does not occur in the string. *)
Fixpoint lacks (c : ascii) (s : string) : bool :=
  match s with
  | EmptyString => true
  | String a r => negb (Ascii.eqb a c) && lacks c r
  end.

(** A confirmation of three credits for Alice, as [cmd_buy] builds it. *)
Definition confirm_three : CallbackQuery.t :=
  CallbackQuery.mk 77 (check_payment_data 3).

(** A payload with a field too many, and a confirmation from a stranger. *)
Definition confirm_garbled : CallbackQuery.t :=
  CallbackQuery.mk 77 "check_payment:3:4".
Definition confirm_stranger : CallbackQuery.t :=
  CallbackQuery.mk 99 (check_payment_data 3).

(** The first character exists and is not a dot. *)
Definition starts_without_dot (s : string) : bool :=
  match s with
  | EmptyString => false
  | String c _ => negb (Ascii.eqb c ".")
  end.

(** User rows are told apart by their Telegram id and by their primary
    key, and no key exceeds the sequence. *)
Definition users_unique (s : Store) : Prop :=
  NoDup (map User.telegram_id (users s))
  /\ NoDup (map User.id (users s))
  /\ (forall u, In u (users s) -> User.id u <= users_id_seq s).

(** A sample history: Alice takes her free credits, confirms a purchase
    of three and submits a file, and the worker takes a turn. *)
Definition a_purchase_and_a_job : list Action :=
  [Free no_faults alice_sol;
   CheckPayment no_faults confirm_three;
   Audit no_faults "ab12" alice_sol;
   WorkerTurn calm].

(** A calendar date that [datetime] can hold. *)
Definition valid_date (d : DateTime.t) : Prop :=
  1 <= DateTime.year d <= 9999
  /\ 1 <= DateTime.month d <= 12
  /\ 1 <= DateTime.day d <= 31.

(** The same day of the same month of the same year. *)
Definition same_date (d1 d2 : DateTime.t) : Prop :=
  DateTime.day d1 = DateTime.day d2
  /\ DateTime.month d1 = DateTime.month d2
  /\ DateTime.year d1 = DateTime.year d2.

(** [n] is printed on two characters by [%d] and [%m], and read back. *)
Definition two_digits (n : Z) : bool :=
  let s := zfill 2 (Py.str n) in
  (String.length s =? 2)%nat
  && match Py.int s with Some v => v =? n | None => false end.

(** Every step inside the [try] that can raise does raise. *)
Definition stormy : WorkerEnv :=
  mkWorkerEnv false false false false false false false false false
              true false false true true true true false false
              noon_17_may "documents/file_1.sol" "contract C {}".

(** Redis cannot be reached. *)
Definition redis_down : WorkerEnv :=
  mkWorkerEnv true false false false false false false false false
              false false false false false false false false false
              noon_17_may "documents/file_1.sol" "contract C {}".

(** A row as [get_or_create_user] creates it: its Telegram id is not in
    the table yet, its key is the next value of the sequence and it
    holds no credit. *)
Definition fresh_user (s : Store) (nu : User.t) : Prop :=
  find_user_by_telegram_id s (User.telegram_id nu) = None
  /\ User.id nu = users_id_seq s + 1
  /\ User.available_audits nu = 0.

(** The balance that an action may write into the row [u]: the free
    grant on an empty balance, or the balance plus the quantity of a
    confirmation. *)
Definition credited (a : Action) (u : User.t) (v : Z) : Prop :=
  match a with
  | Free _ _ => User.available_audits u = 0 /\ v = 2
  | CheckPayment _ c =>
      exists q, confirmed_quantity c = Some q
                /\ v = User.available_audits u + q
  | _ => False
  end.

(** What an action can do to the store: nothing; take the head off the
    queue; create the sender's row, and credit it; credit a row. *)
Inductive transition (a : Action) (s : Store) : Store -> Prop :=
| t_same : transition a s s
| t_pop : transition a s (with_queue (tl (audit_queue s)) s)
| t_new nu :
    fresh_user s nu -> transition a s (apply_write s (InsertUser nu))
| t_new_credit nu v :
    fresh_user s nu -> credited a nu v ->
    transition a s
      (apply_write (apply_write s (InsertUser nu))
         (SetAvailableAudits (User.id nu) v))
| t_credit tid u v :
    find_user_by_telegram_id s tid = Some u -> credited a u v ->
    transition a s (apply_write s (SetAvailableAudits (User.id u) v)).



(** Requests are told apart by their primary key, no key exceeds the
    sequence, and the queue holds the texts of such keys, each once. *)
Definition requests_numbered (s : Store) : Prop :=
  NoDup (map AuditRequest.id (audit_requests s))
  /\ (forall r, In r (audit_requests s) ->
                AuditRequest.id r <= audit_requests_id_seq s)
  /\ NoDup (audit_queue s)
  /\ (forall e, In e (audit_queue s) ->
        exists n, e = Py.str n /\ n <= audit_requests_id_seq s).

(** Every audit request belongs to a stored user. *)
Definition owners_exist (s : Store) : Prop :=
  forall r, In r (audit_requests s) ->
    exists u, find_user s (AuditRequest.user_id r) = Some u
              /\ User.id u = AuditRequest.user_id r.

(* ================================================================== *)
(** * Properties of the Python builtins *)
(* ================================================================== *)

Module PyFacts.

Lemma digit_not_space c : Py.is_digit c = true -> Py.is_space c = false.
Proof.
  destruct c as [[|] [|] [|] [|] [|] [|] [|] [|]]; vm_compute; congruence.
Qed.

Lemma digit_not_sign c :
  Py.is_digit c = true ->
  Ascii.eqb c "-" = false /\ Ascii.eqb c "+" = false.
Proof.
  destruct c as [[|] [|] [|] [|] [|] [|] [|] [|]]; vm_compute;
    intuition congruence.
Qed.

Lemma digit_plain c : Py.is_digit c = true -> (N_of_ascii c <? 127)%N = true.
Proof.
  destruct c as [[|] [|] [|] [|] [|] [|] [|] [|]]; vm_compute; congruence.
Qed.

Lemma string_of_uint_digits d :
  all_digits (NilEmpty.string_of_uint d) = true.
Proof. induction d; simpl; auto. Qed.

Lemma digits_plain s : all_digits s = true -> plain_ascii s = true.
Proof.
  induction s as [|c r IH]; simpl; auto.
  intros H. apply andb_true_iff in H. destruct H as [Hc Hr].
  now rewrite (digit_plain c Hc), (IH Hr).
Qed.

Lemma lstrip_digits s : all_digits s = true -> Py.lstrip s = s.
Proof.
  destruct s as [|c r]; simpl; auto.
  intros H. apply andb_true_iff in H. destruct H as [Hc _].
  now rewrite (digit_not_space c Hc).
Qed.

Lemma rstrip_digits s : all_digits s = true -> Py.rstrip s = s.
Proof.
  induction s as [|c r IH]; simpl; auto.
  intros H. apply andb_true_iff in H. destruct H as [Hc Hr].
  rewrite (digit_not_space c Hc), (IH Hr). reflexivity.
Qed.

Lemma strip_digits s : all_digits s = true -> Py.strip s = s.
Proof.
  intros H. unfold Py.strip. rewrite (lstrip_digits s H).
  now apply rstrip_digits.
Qed.

Lemma group_digits_all s :
  all_digits s = true -> Py.group_digits true s = Some s.
Proof.
  induction s as [|c r IH]; simpl; auto.
  intros H. apply andb_true_iff in H. destruct H as [Hc Hr].
  now rewrite Hc, (IH Hr).
Qed.

Lemma group_digits_nonempty c r :
  all_digits (String c r) = true ->
  Py.group_digits false (String c r) = Some (String c r).
Proof.
  simpl. intros H. apply andb_true_iff in H. destruct H as [Hc Hr].
  now rewrite Hc, (group_digits_all r Hr).
Qed.

(** On ASCII text [int] skips the transformation: the code points are the
    bytes and each stands for itself. *)
Lemma ascii_decimal_plain s :
  plain_ascii s = true ->
  option_map Py.ascii_decimal (Py.code_points s) = Some s.
Proof.
  induction s as [|c r IH]; [reflexivity|].
  cbn [plain_ascii]. intros H. apply andb_true_iff in H.
  destruct H as [Hc Hr]. specialize (IH Hr).
  cbn [Py.code_points].
  assert (H128 : (N_of_ascii c <? 128)%N = true).
  { apply N.ltb_lt. apply N.ltb_lt in Hc. lia. }
  rewrite H128.
  destruct (Py.code_points r) as [chars|]; [|discriminate IH].
  cbn in IH. injection IH as IH. cbn [option_map Py.ascii_decimal].
  now rewrite Hc, ascii_N_embedding, IH.
Qed.

Lemma int_plain s :
  plain_ascii s = true -> Py.int s = Py.long_from_string s.
Proof.
  intros H. apply ascii_decimal_plain in H. unfold Py.int.
  destruct (Py.code_points s) as [chars|]; [|discriminate H].
  cbn in H. injection H as H. now rewrite H.
Qed.

(** [int] reads back an unsigned decimal numeral. *)
Lemma int_of_digits d :
  d <> Decimal.Nil ->
  Py.int (NilEmpty.string_of_uint d) = Some (Z.of_uint d).
Proof.
  intros Hd.
  pose proof (string_of_uint_digits d) as Hall.
  pose proof (NilEmpty.usu d) as Hus.
  rewrite (int_plain _ (digits_plain _ Hall)).
  destruct (NilEmpty.string_of_uint d) as [|c r] eqn:E.
  - destruct d; simpl in E; congruence.
  - unfold Py.long_from_string. rewrite (strip_digits _ Hall).
    assert (Hc : Py.is_digit c = true).
    { simpl in Hall. now apply andb_true_iff in Hall. }
    destruct (digit_not_sign c Hc) as [Hm Hp].
    assert (Hbody :
      (match String c r with
       | String "-" r0 => (true, r0)
       | String "+" r0 => (false, r0)
       | _ => (false, String c r)
       end) = (false, String c r)).
    { destruct c as [[|] [|] [|] [|] [|] [|] [|] [|]];
        try reflexivity; vm_compute in Hm, Hp; congruence. }
    rewrite Hbody, (group_digits_nonempty c r Hall), Hus. reflexivity.
Qed.

(** ... and a negative one. *)
Lemma int_of_minus_digits d :
  d <> Decimal.Nil ->
  Py.int (String "-" (NilEmpty.string_of_uint d)) = Some (- Z.of_uint d).
Proof.
  intros Hd.
  pose proof (string_of_uint_digits d) as Hall.
  pose proof (NilEmpty.usu d) as Hus.
  rewrite int_plain
    by (cbn [plain_ascii]; now rewrite (digits_plain _ Hall)).
  destruct (NilEmpty.string_of_uint d) as [|c r] eqn:E.
  - destruct d; simpl in E; congruence.
  - unfold Py.long_from_string, Py.strip.
    change (Py.lstrip (String "-" (String c r))) with (String "-" (String c r)).
    change (Py.rstrip (String "-" (String c r)))
      with (String "-" (Py.rstrip (String c r))).
    rewrite (rstrip_digits _ Hall).
    rewrite (group_digits_nonempty c r Hall), Hus. reflexivity.
Qed.

Lemma pos_to_uint_nonnil p : Pos.to_uint p <> Decimal.Nil.
Proof.
  intros H.
  pose proof (DecimalPos.Unsigned.of_to p) as E.
  rewrite H in E. simpl in E. discriminate.
Qed.

(** [int(str(n)) == n]. *)
Lemma int_str (n : Z) : Py.int (Py.str n) = Some n.
Proof.
  unfold Py.str.
  pose proof (DecimalZ.of_to n) as Hn.
  destruct n as [|p|p]; [reflexivity| |].
  - simpl in *. unfold NilZero.string_of_uint.
    pose proof (pos_to_uint_nonnil p) as Hp.
    destruct (Pos.to_uint p) eqn:E; [congruence|..];
      rewrite <- E in *; rewrite (int_of_digits _ Hp);
      unfold Z.of_int in Hn; rewrite E in Hn; rewrite E; now f_equal.
  - simpl in *. unfold NilZero.string_of_uint.
    pose proof (pos_to_uint_nonnil p) as Hp.
    destruct (Pos.to_uint p) eqn:E; [congruence|..];
      rewrite <- E in *; rewrite (int_of_minus_digits _ Hp);
      unfold Z.of_int in Hn; rewrite E in Hn; rewrite E; now f_equal.
Qed.

(** The text of an integer is never empty. *)
Lemma str_truthy (n : Z) : Py.truthy (Py.str n) = true.
Proof.
  pose proof (int_str n) as H.
  destruct (Py.str n); [discriminate H | reflexivity].
Qed.

End PyFacts.

(* ================================================================== *)
(** * Submission: validation and credits *)
(* ================================================================== *)

Arguments generate_html_report : simpl never.
Arguments Py.replace : simpl never.
Arguments Py.int : simpl never.
Arguments Py.str : simpl never.
Arguments Py.splitext : simpl never.
Arguments Py.lower : simpl never.
Arguments apply_write : simpl never.
Arguments find_request : simpl never.
Arguments find_user : simpl never.
Arguments find_user_by_telegram_id : simpl never.

(** Unfolds the monad's combinators in the goal. *)
Ltac prog_unfold :=
  cbv [bind ret raise emit external try_except try_except_value_error
       get_store put_store add_pending commit with_session session_active
       session_get_request session_get_user select_user_by_telegram_id
       session_add_user session_add_request set_available_audits set_status
       rpush lpop llen telegram_id_of int_of_entry].

(** C6. A submission whose file extension is not [.sol] (compared after
    lower-casing) is rejected with the invalid-extension reply and nothing
    else happens: the store (users and their credits, audit requests,
    queue) is unchanged and the reply is the only effect performed, if the
    reply itself can be sent. *)
Theorem cmd_audit_invalid_extension
    (f : Faults) (unique_id : string) (message : Message.t) (w : World) :
  accepted_extension (Message.document_file_name message) = false ->
  let '(w', r) := cmd_audit f unique_id message w in
  store w' = store w
  /\ log w' = log w ++ (if reply_raises f then []
                        else [Reply TextInvalidExtension])
  /\ r = (if reply_raises f then Raise ExternalError else Return tt).
Proof.
  unfold accepted_extension, cmd_audit. intros ->. cbn [negb].
  prog_unfold. destruct (reply_raises f); cbn; rewrite ?app_nil_r; auto.
Qed.

Lemma cmd_audit_invalid_extension_witness :
  let '(w', r) := cmd_audit no_faults "ab12" alice_txt
                    (initial_world store_alice) in
  store w' = store_alice
  /\ log w' = [Reply TextInvalidExtension]
  /\ r = Return tt.
Proof.
  exact (cmd_audit_invalid_extension no_faults "ab12" alice_txt
           (initial_world store_alice) eq_refl).
Defined.

(** Destructs the test the program is waiting on. *)
Ltac exec_step :=
  match goal with
  | |- context [if ?b then _ else _] => destruct b eqn:?
  | |- context [match ?x with Some _ => _ | None => _ end] => destruct x eqn:?
  end; cbn.

Lemma commits_app l1 l2 : commits (l1 ++ l2) = commits l1 ++ commits l2.
Proof.
  induction l1 as [|e l1 IH]; cbn; auto.
  destruct e; cbn; auto. now rewrite IH.
Qed.

(** Closes a leaf of the case analysis of [cmd_audit]. *)
Ltac audit_leaf :=
  cbn;
  split;
  [ first [ left; reflexivity
          | right; split; [first [assumption | reflexivity] | reflexivity] ]
  | eexists; split;
    [ first [ symmetry; apply app_nil_r
            | rewrite <- ?app_assoc; reflexivity ]
    | split;
      [ first [ left; reflexivity
              | right; split;
                [first [assumption | reflexivity] | reflexivity] ]
      | cbn; intros p Hin; intuition discriminate ] ] ].

(** What [cmd_audit] can do to the world, whatever fails: the commit of
    a request cannot be made, so the store gains at most the row of a
    sender seen for the first time, and the log only replies, directories
    and the commit of that row. *)
Lemma cmd_audit_outcome f unique_id m w :
  let '(w', r) := cmd_audit f unique_id m w in
  let nu := new_user (store w) m in
  (store w' = store w
   \/ (find_user_by_telegram_id (store w) (Message.from_user_id m) = None
       /\ store w' = apply_write (store w) (InsertUser nu)))
  /\ exists l, log w' = log w ++ l
       /\ (commits l = []
           \/ (find_user_by_telegram_id (store w) (Message.from_user_id m)
               = None /\ commits l = [[InsertUser nu]]))
       /\ forall p, ~ In (Reply (TextQueued p)) l.
Proof.
  destruct w as [st pd lg]. cbn [store log].
  unfold cmd_audit, get_or_create_user. prog_unfold. cbn.
  repeat exec_step; audit_leaf.
Qed.

(** C7, counterexample.  A sender seen for the first time holds no
    credit and is turned away with the no-credits reply, but not before
    any store mutation: [get_or_create_user] has inserted and committed
    the sender's row by then. *)
Lemma first_contact_creates_user :
  let '(w', r) := cmd_audit no_faults "ab12" bob_sol
                    (initial_world store_alice_broke) in
  find_user_by_telegram_id store_alice_broke 88 = None
  /\ r = Return tt
  /\ log w' = [Committed [InsertUser (User.mk 2 88 (Some "Bob") None None 0)];
               Reply TextNoCredits]
  /\ store w' <> store_alice_broke
  /\ users (store w')
     = [alice_broke; User.mk 2 88 (Some "Bob") None None 0].
Proof.
  vm_compute. repeat split. discriminate.
Qed.

(** C7, amended.  A sender who holds no credit ([available_audits <= 0])
    or has no row yet cannot submit: whatever the file and whichever
    calls fail, no audit request is created and the queue is unchanged;
    the store is unchanged altogether for a sender who has a row, and
    gains at most the sender's own new row, created without credit, for
    a sender who has none.  When the file type is accepted and the row
    can be read (or created), the only other effect is the no-credits
    reply. *)
Theorem cmd_audit_no_credits
    (f : Faults) (unique_id : string) (message : Message.t) (w : World) :
  match find_user_by_telegram_id (store w) (Message.from_user_id message) with
  | Some u => User.available_audits u <= 0
  | None => True
  end ->
  let '(w', r) := cmd_audit f unique_id message w in
  let nu := new_user (store w) message in
  audit_requests (store w') = audit_requests (store w)
  /\ audit_queue (store w') = audit_queue (store w)
  /\ match find_user_by_telegram_id (store w)
             (Message.from_user_id message) with
     | Some u => store w' = store w
     | None => store w' = store w
               \/ store w' = apply_write (store w) (InsertUser nu)
     end
  /\ (accepted_extension (Message.document_file_name message) = true ->
      select_user_raises f = false ->
      create_commit_raises f = false ->
      log w'
      = log w
        ++ match find_user_by_telegram_id (store w)
                   (Message.from_user_id message) with
           | Some u => []
           | None => [Committed [InsertUser nu]]
           end
        ++ (if reply_raises f then [] else [Reply TextNoCredits])
      /\ r = (if reply_raises f then Raise ExternalError else Return tt)).
Proof.
  destruct w as [st pd lg]. cbn [store log]. intros Hc.
  unfold cmd_audit, accepted_extension.
  destruct (_ =? _)%string; cbn [negb].
  - unfold get_or_create_user. prog_unfold. cbn.
    destruct (select_user_raises f); cbn.
    + destruct (find_user_by_telegram_id st _);
        (repeat split; auto; intros; congruence).
    + destruct (find_user_by_telegram_id st _) as [u|]; cbn.
      * destruct (Z.leb_spec (User.available_audits u) 0); [|lia].
        destruct (reply_raises f); cbn; rewrite ?app_nil_r; auto 6.
      * destruct (create_commit_raises f); cbn.
        { repeat split; auto; intros; congruence. }
        destruct (reply_raises f); cbn; rewrite <- ?app_assoc;
          repeat split; auto.
  - prog_unfold.
    destruct (find_user_by_telegram_id st _);
      destruct (reply_raises f); cbn;
      (repeat split; auto; intros; congruence).
Qed.

Lemma cmd_audit_no_credits_witness :
  let '(w', r) := cmd_audit no_faults "ab12" bob_sol
                    (initial_world store_alice_broke) in
  let nu := new_user store_alice_broke bob_sol in
  audit_requests (store w') = []
  /\ audit_queue (store w') = []
  /\ (store w' = store_alice_broke
      \/ store w' = apply_write store_alice_broke (InsertUser nu))
  /\ log w' = [] ++ [Committed [InsertUser nu]] ++ [Reply TextNoCredits]
  /\ r = Return tt.
Proof.
  pose proof (cmd_audit_no_credits no_faults "ab12" bob_sol
                (initial_world store_alice_broke) I) as H.
  destruct (cmd_audit no_faults "ab12" bob_sol
              (initial_world store_alice_broke)) as [w' r].
  destruct H as (H1 & H2 & H3 & H4).
  destruct (H4 eq_refl eq_refl eq_refl) as [H5 H6].
  repeat split; assumption.
Defined.

Lemma find_app_found {A} (p : A -> bool) (l l' : list A) (x : A) :
  find p l = Some x -> find p (l ++ l') = Some x.
Proof.
  induction l as [|y l IH]; cbn; [discriminate|].
  destruct (p y); [auto | exact IH].
Qed.

(** X11. As deployed, no submission is accepted.  Whatever the sender,
    the file and the failures, [cmd_audit] stores no request, pushes
    nothing on the queue, changes no balance and never sends the queued
    reply.  For a sender with credit whose file passes the check and
    whose other calls succeed, the transaction of the debit and the
    insert cannot be sent (the defaults of [created_at] and [updated_at]
    are aware values): the commit raises [DataError], nothing is stored
    and the user gets no reply. *)
Theorem no_submission_is_accepted f unique_id m w :
  let '(w', r) := cmd_audit f unique_id m w in
  audit_requests (store w') = audit_requests (store w)
  /\ audit_queue (store w') = audit_queue (store w)
  /\ (forall tid u,
        find_user_by_telegram_id (store w) tid = Some u ->
        find_user_by_telegram_id (store w') tid = Some u)
  /\ (exists l, log w' = log w ++ l
                /\ forall p, ~ In (Reply (TextQueued p)) l)
  /\ (forall u,
        accepted_extension (Message.document_file_name m) = true ->
        find_user_by_telegram_id (store w) (Message.from_user_id m) = Some u ->
        0 < User.available_audits u ->
        select_user_raises f = false ->
        makedirs_uploads_raises f = false ->
        makedirs_reports_raises f = false ->
        commit_raises f = false ->
        r = Raise DataError
        /\ store w' = store w
        /\ log w' = log w ++ [MakeDirs "uploads"; MakeDirs "reports"]).
Proof.
  pose proof (cmd_audit_outcome f unique_id m w) as H.
  assert (Hrun :
    forall u,
      accepted_extension (Message.document_file_name m) = true ->
      find_user_by_telegram_id (store w) (Message.from_user_id m) = Some u ->
      0 < User.available_audits u ->
      select_user_raises f = false ->
      makedirs_uploads_raises f = false ->
      makedirs_reports_raises f = false ->
      commit_raises f = false ->
      cmd_audit f unique_id m w
      = (mkWorld (store w) []
           (log w ++ [MakeDirs "uploads"; MakeDirs "reports"]),
         Raise DataError)).
  { destruct w as [st pd lg]. cbn [store log].
    intros u Hext Hu Hc Hs Hm1 Hm2 Hk. unfold accepted_extension in Hext.
    unfold cmd_audit, get_or_create_user. rewrite Hext. cbn [negb].
    prog_unfold. cbn. rewrite Hs. cbn. rewrite Hu. cbn.
    destruct (Z.leb_spec (User.available_audits u) 0) as [Hle|_]; [lia|].
    destruct (Z.eqb_spec (User.available_audits u - 1)
                (User.available_audits u)) as [He|_]; [lia|].
    cbn. rewrite Hm1. cbn. rewrite Hm2. cbn. rewrite Hk. cbn.
    now rewrite <- app_assoc. }
  destruct (cmd_audit f unique_id m w) as [w' r].
  cbn zeta in H. destruct H as (Hs & l & Hl & _ & Hq).
  assert (Hst : audit_requests (store w') = audit_requests (store w)
                /\ audit_queue (store w') = audit_queue (store w)
                /\ forall tid u,
                     find_user_by_telegram_id (store w) tid = Some u ->
                     find_user_by_telegram_id (store w') tid = Some u).
  { destruct Hs as [-> | [_ ->]]; [auto|].
    split; [reflexivity|]. split; [reflexivity|].
    intros tid u Hu. unfold find_user_by_telegram_id, apply_write in *.
    cbn. now apply find_app_found. }
  destruct Hst as (H1 & H2 & H3).
  repeat (split; [assumption|]).
  split; [exists l; auto|].
  intros u Hext Hu Hc Hsel Hm1 Hm2 Hk.
  specialize (Hrun u Hext Hu Hc Hsel Hm1 Hm2 Hk).
  injection Hrun as -> ->. auto.
Qed.

Lemma no_submission_is_accepted_witness :
  let '(w', r) := cmd_audit no_faults "ab12" alice_sol
                    (initial_world store_alice) in
  r = Raise DataError
  /\ store w' = store_alice
  /\ log w' = [] ++ [MakeDirs "uploads"; MakeDirs "reports"].
Proof.
  pose proof (no_submission_is_accepted no_faults "ab12" alice_sol
                (initial_world store_alice)) as H.
  destruct (cmd_audit no_faults "ab12" alice_sol (initial_world store_alice))
    as [w' r].
  destruct H as (_ & _ & _ & _ & H).
  exact (H alice eq_refl eq_refl eq_refl eq_refl eq_refl eq_refl eq_refl).
Defined.

(* ================================================================== *)
(** * The queue *)
(* ================================================================== *)

Lemma run_queue_ops_conservation (ops : list QueueOp) :
  forall w, exists w' out,
    run_queue_ops ops w = (w', Return out)
    /\ out ++ audit_queue (store w')
       = audit_queue (store w) ++ map Py.str (enqueued ops).
Proof.
  induction ops as [|[id|] rest IH]; intros w.
  - exists w, []. cbn. now rewrite app_nil_r.
  - cbn [run_queue_ops enqueued map]. prog_unfold. cbn.
    match goal with |- context [run_queue_ops rest ?w1] =>
      destruct (IH w1) as (w' & out & E & Hq) end.
    exists w', out. split; [exact E|].
    rewrite Hq. cbn. unfold queue_rpush. now rewrite <- app_assoc.
  - cbn [run_queue_ops enqueued]. prog_unfold.
    destruct (audit_queue (store w)) as [|s q] eqn:Eq; cbn.
    + match goal with |- context [run_queue_ops rest ?w1] =>
        destruct (IH w1) as (w' & out & E & Hq) end.
      rewrite E. exists w', out. split; [reflexivity|]. exact Hq.
    + match goal with |- context [run_queue_ops rest ?w1] =>
        destruct (IH w1) as (w' & out & E & Hq) end.
      rewrite E. exists w', (s :: out). split; [reflexivity|].
      cbn in *. now rewrite Hq.
Qed.

(** C8. The queue is first-in first-out.  Starting from an empty queue,
    for every interleaving of pushes and pops: the entries popped followed
    by the entries left are the ids pushed, in push order; hence the N-th
    entry popped is the text of the N-th id pushed and the worker's
    [int] reads that id back; and a push directly followed by a pop
    returns the id pushed. *)
Theorem queue_fifo (ops : list QueueOp) (w : World) :
  audit_queue (store w) = [] ->
  exists w' out,
    run_queue_ops ops w = (w', Return out)
    /\ out ++ audit_queue (store w') = map Py.str (enqueued ops)
    /\ (forall n s, nth_error out n = Some s ->
          exists id, nth_error (enqueued ops) n = Some id
                     /\ s = Py.str id /\ Py.int s = Some id)
    /\ (forall id,
          let '(w1, r) := (rpush false id ;; lpop false) w in
          r = Return (Some (Py.str id))
          /\ audit_queue (store w1) = []
          /\ Py.int (Py.str id) = Some id).
Proof.
  intros Hempty.
  destruct (run_queue_ops_conservation ops w) as (w' & out & E & Hq).
  rewrite Hempty in Hq. cbn in Hq.
  exists w', out.
  split; [exact E|]. split; [exact Hq|]. split.
  - intros n s Hn.
    assert (Hn' : nth_error (map Py.str (enqueued ops)) n = Some s).
    { rewrite <- Hq. rewrite nth_error_app1; [exact Hn|].
      apply nth_error_Some. congruence. }
    rewrite nth_error_map in Hn'.
    destruct (nth_error (enqueued ops) n) as [id|]; [|discriminate].
    cbn in Hn'. injection Hn' as <-.
    exists id. split; [reflexivity|]. split; [reflexivity|].
    apply PyFacts.int_str.
  - intros id. prog_unfold. cbn. rewrite Hempty. cbn.
    split; [reflexivity|]. split; [reflexivity|]. apply PyFacts.int_str.
Qed.

Lemma queue_fifo_witness :
  exists w' out,
    run_queue_ops queue_demo_ops (initial_world empty_store) = (w', Return out)
    /\ out ++ audit_queue (store w') = map Py.str (enqueued queue_demo_ops)
    /\ (forall n s, nth_error out n = Some s ->
          exists id, nth_error (enqueued queue_demo_ops) n = Some id
                     /\ s = Py.str id /\ Py.int s = Some id)
    /\ (forall id,
          let '(w1, r) := (rpush false id ;; lpop false)
                            (initial_world empty_store) in
          r = Return (Some (Py.str id))
          /\ audit_queue (store w1) = []
          /\ Py.int (Py.str id) = Some id).
Proof.
  apply (queue_fifo queue_demo_ops (initial_world empty_store)).
  reflexivity.
Defined.

(* ================================================================== *)
(** * The report *)
(* ================================================================== *)

Lemma length_append s1 s2 :
  String.length (s1 ++ s2)%string
  = (String.length s1 + String.length s2)%nat.
Proof. induction s1 as [|a r IH]; cbn; [reflexivity | now rewrite IH]. Qed.

Lemma append_cancel_l (a x y : string) :
  (a ++ x = a ++ y)%string -> x = y.
Proof.
  induction a as [|c a IH]; cbn; [auto|].
  intros H. injection H as H. auto.
Qed.

Lemma append_split (a b x y : string) :
  String.length a = String.length b ->
  (a ++ x = b ++ y)%string -> a = b /\ x = y.
Proof.
  revert b. induction a as [|c a IH]; intros [|d b] Hlen H;
    cbn in *; try discriminate; [auto|].
  injection Hlen as Hlen. injection H as -> H.
  destruct (IH b Hlen H) as [-> ->]. auto.
Qed.

Lemma append_cancel_r (x y r : string) :
  (x ++ r = y ++ r)%string -> x = y.
Proof.
  intros H. apply (append_split x y r r); [|exact H].
  apply (f_equal String.length) in H. rewrite !length_append in H. lia.
Qed.

Lemma str_injective a b : Py.str a = Py.str b -> a = b.
Proof.
  intros H. pose proof (PyFacts.int_str a) as Ha.
  rewrite H, PyFacts.int_str in Ha. congruence.
Qed.

Lemma two_digits_below_100 :
  forallb (fun k => two_digits (Z.of_nat k)) (seq 0 100) = true.
Proof. vm_compute. reflexivity. Qed.

Lemma two_digits_spec n :
  0 <= n <= 99 ->
  String.length (zfill 2 (Py.str n)) = 2%nat
  /\ Py.int (zfill 2 (Py.str n)) = Some n.
Proof.
  intros Hn.
  pose proof (proj1 (forallb_forall _ _) two_digits_below_100 (Z.to_nat n))
    as H.
  assert (Hin : In (Z.to_nat n) (seq 0 100)) by (apply in_seq; lia).
  specialize (H Hin). cbv beta in H. rewrite Z2Nat.id in H by lia.
  unfold two_digits in H.
  apply andb_true_iff in H. destruct H as [Hl Hi].
  apply Nat.eqb_eq in Hl. split; [exact Hl|].
  destruct (Py.int _) as [v|]; [|discriminate].
  apply Z.eqb_eq in Hi. now subst.
Qed.

(** On calendar dates the printed date tells the date. *)
Lemma strftime_dmY_injective d1 d2 :
  valid_date d1 -> valid_date d2 ->
  strftime_dmY d1 = strftime_dmY d2 -> same_date d1 d2.
Proof.
  intros (Hy1 & Hm1 & Hd1) (Hy2 & Hm2 & Hd2) H. unfold strftime_dmY in H.
  destruct (two_digits_spec (DateTime.day d1)) as [Ld1 Id1]; [lia|].
  destruct (two_digits_spec (DateTime.day d2)) as [Ld2 Id2]; [lia|].
  destruct (two_digits_spec (DateTime.month d1)) as [Lm1 Im1]; [lia|].
  destruct (two_digits_spec (DateTime.month d2)) as [Lm2 Im2]; [lia|].
  apply append_split in H; [|congruence]. destruct H as [Ed H].
  cbn [String.append] in H. injection H as H.
  apply append_split in H; [|congruence]. destruct H as [Em H].
  cbn [String.append] in H. injection H as H.
  apply str_injective in H.
  rewrite Ed in Id1. rewrite Em in Im1.
  repeat split; congruence.
Qed.

Lemma strftime_now_utc d :
  strftime_dmY (DateTime.now_utc d) = strftime_dmY d.
Proof. reflexivity. Qed.

(** C5, counterexample.  The report body is not a function of the file
    name alone: it prints the current UTC date, so the same file name
    gives two different bodies on two different days. *)
Lemma generate_html_report_depends_on_date :
  generate_html_report noon_17_may "contract.sol"
  <> generate_html_report noon_18_may "contract.sol".
Proof.
  intros H. apply String.eqb_eq in H. vm_compute in H. discriminate H.
Qed.

(** C5, amended.  The report body is a function of the file name and of
    the current UTC calendar date only.  Two invocations with the same
    file name on the same day, month and year produce the same body,
    whatever the time of day (the file contents are not even an input);
    and two invocations with the same file name on different calendar
    dates produce different bodies. *)
Theorem generate_html_report_same_day
    (now1 now2 : DateTime.t) (file_name : string) :
  (same_date now1 now2 ->
   generate_html_report now1 file_name = generate_html_report now2 file_name)
  /\ (valid_date now1 -> valid_date now2 ->
      generate_html_report now1 file_name
      = generate_html_report now2 file_name ->
      same_date now1 now2).
Proof.
  unfold generate_html_report. rewrite !strftime_now_utc. split.
  - intros (Hd & Hm & Hy). unfold strftime_dmY.
    rewrite Hd, Hm, Hy. reflexivity.
  - intros H1 H2 H.
    apply append_cancel_l, append_cancel_r in H.
    now apply strftime_dmY_injective.
Qed.

Lemma generate_html_report_same_day_witness :
  generate_html_report noon_17_may "contract.sol"
  = generate_html_report late_17_may "contract.sol"
  /\ (generate_html_report noon_17_may "contract.sol"
      = generate_html_report noon_18_may "contract.sol" ->
      same_date noon_17_may noon_18_may).
Proof.
  destruct (generate_html_report_same_day noon_17_may late_17_may
              "contract.sol") as [Hsame _].
  destruct (generate_html_report_same_day noon_17_may noon_18_may
              "contract.sol") as [_ Hdiff].
  split.
  - apply Hsame. repeat split.
  - apply Hdiff; unfold valid_date; cbn; lia.
Defined.

(* ================================================================== *)
(** * Submission: which files pass the check *)
(* ================================================================== *)

Lemma lacks_app c s1 s2 :
  lacks c (s1 ++ s2)%string = lacks c s1 && lacks c s2.
Proof.
  induction s1 as [|a r IH]; cbn; [reflexivity|].
  now rewrite IH, andb_assoc.
Qed.

Lemma rfind_from_lacks c s : forall i last,
  lacks c s = true -> Py.rfind_from c s i last = last.
Proof.
  induction s as [|a r IH]; intros i last H; cbn in *; [reflexivity|].
  apply andb_true_iff in H. destruct H as [Ha Hr].
  apply negb_true_iff in Ha. rewrite Ha. now apply IH.
Qed.

Lemma rfind_from_app c s1 s2 : forall i last,
  Py.rfind_from c (s1 ++ s2)%string i last
  = Py.rfind_from c s2 (i + Z.of_nat (String.length s1))
      (Py.rfind_from c s1 i last).
Proof.
  induction s1 as [|a r IH]; intros i last; cbn [String.append String.length].
  - cbn. now rewrite Z.add_0_r.
  - cbn [Py.rfind_from]. rewrite IH. f_equal. lia.
Qed.

Lemma rfind_from_lower_bound c s : forall i last,
  last <= i -> last <= Py.rfind_from c s i last.
Proof.
  induction s as [|a r IH]; intros i last H; cbn; [lia|].
  destruct (Ascii.eqb a c).
  - transitivity i; [exact H | apply IH; lia].
  - apply IH. lia.
Qed.

Lemma substring_prefix s1 s2 :
  substring 0 (String.length s1) (s1 ++ s2)%string = s1.
Proof.
  induction s1 as [|a r IH]; cbn; [now destruct s2 | now rewrite IH].
Qed.

Lemma substring_suffix s1 s2 :
  substring (String.length s1) (String.length s2) (s1 ++ s2)%string = s2.
Proof.
  induction s1 as [|a r IH]; cbn; [|exact IH].
  induction s2 as [|b t IHt]; cbn; [reflexivity | now rewrite IHt].
Qed.

Lemma lower_char_keeps_dot_and_slash c :
  Ascii.eqb (Py.lower_char c) "." = Ascii.eqb c "."
  /\ Ascii.eqb (Py.lower_char c) "/" = Ascii.eqb c "/".
Proof.
  destruct c as [[|] [|] [|] [|] [|] [|] [|] [|]]; vm_compute; auto.
Qed.

Lemma lacks_lower_dot s : lacks "." (Py.lower s) = lacks "." s.
Proof.
  induction s as [|a r IH]; [reflexivity|].
  change (Py.lower (String a r)) with (String (Py.lower_char a) (Py.lower r)).
  cbn [lacks]. now rewrite IH, (proj1 (lower_char_keeps_dot_and_slash a)).
Qed.

Lemma lacks_lower_slash s : lacks "/" (Py.lower s) = lacks "/" s.
Proof.
  induction s as [|a r IH]; [reflexivity|].
  change (Py.lower (String a r)) with (String (Py.lower_char a) (Py.lower r)).
  cbn [lacks]. now rewrite IH, (proj2 (lower_char_keeps_dot_and_slash a)).
Qed.

(** [splitext] on a plain file name: the extension starts at the last
    dot. *)
Lemma splitext_plain stem e :
  starts_without_dot stem = true ->
  lacks "/" stem = true ->
  lacks "." e = true -> lacks "/" e = true ->
  Py.splitext (stem ++ String "." e)%string = (stem, String "." e).
Proof.
  intros Hd Hs He1 He2. unfold Py.splitext, Py.rfind.
  assert (Hsep : Py.rfind_from "/" (stem ++ String "." e)%string 0 (-1) = -1).
  { apply rfind_from_lacks. rewrite lacks_app, Hs. cbn. exact He2. }
  assert (Hdot : Py.rfind_from "." (stem ++ String "." e)%string 0 (-1)
                 = Z.of_nat (String.length stem)).
  { rewrite rfind_from_app. cbn [Py.rfind_from]. cbn [Ascii.eqb Bool.eqb].
    rewrite rfind_from_lacks by exact He1. lia. }
  rewrite Hsep, Hdot.
  destruct stem as [|c stem']; [discriminate Hd|].
  cbn [starts_without_dot] in Hd.
  assert (Hlt : (-1 <? Z.of_nat (String.length (String c stem'))) = true).
  { apply Z.ltb_lt. lia. }
  rewrite Hlt.
  replace (Z.to_nat (Z.of_nat (String.length (String c stem')) - (-1 + 1)))
    with (S (String.length stem')) by (cbn [String.length]; lia).
  cbn [Py.splitext_loop]. unfold Py.not_dot_at.
  change (Z.to_nat (-1 + 1)) with O.
  cbn [String.append String.get]. rewrite Hd. cbn [andb].
  rewrite Nat2Z.id.
  change (String c (stem' ++ String "." e)%string)
    with (String c stem' ++ String "." e)%string.
  rewrite substring_prefix. f_equal.
  rewrite length_append.
  replace (String.length (String c stem') + String.length (String "." e)
           - String.length (String c stem'))%nat
    with (String.length (String "." e)) by lia.
  apply substring_suffix.
Qed.

(** X9. Which names pass the file check of [cmd_audit]: a plain file name
    (no directory separator, not starting with a dot) followed by [.sol]
    written in any mix of upper and lower case is accepted, dots inside
    the name included. *)
Theorem sol_files_are_accepted stem ext :
  starts_without_dot stem = true ->
  lacks "/" stem = true ->
  Py.lower ext = ".sol"%string ->
  accepted_extension (stem ++ ext) = true.
Proof.
  intros Hd Hs He. unfold accepted_extension.
  destruct ext as [|c e]; [discriminate He|].
  change (Py.lower (String c e)) with (String (Py.lower_char c) (Py.lower e))
    in He.
  injection He as Hc Hl.
  assert (c = "."%char) as ->.
  { apply Ascii.eqb_eq.
    rewrite <- (proj1 (lower_char_keeps_dot_and_slash c)), Hc. reflexivity. }
  assert (He1 : lacks "." e = true) by (now rewrite <- lacks_lower_dot, Hl).
  assert (He2 : lacks "/" e = true) by (now rewrite <- lacks_lower_slash, Hl).
  rewrite (splitext_plain stem e Hd Hs He1 He2). cbn [snd].
  change (Py.lower (String "." e)) with (String (Py.lower_char ".") (Py.lower e)).
  rewrite Hl. reflexivity.
Qed.

Lemma sol_files_are_accepted_witness :
  accepted_extension ("My.Token" ++ ".SOL") = true.
Proof.
  apply (sol_files_are_accepted "My.Token" ".SOL"); reflexivity.
Defined.

(** X10. A name without any dot has no extension and is refused by the
    file check of [cmd_audit]. *)
Theorem names_without_dot_are_refused name :
  lacks "." name = true -> accepted_extension name = false.
Proof.
  intros H. unfold accepted_extension, Py.splitext, Py.rfind.
  rewrite (rfind_from_lacks "." name 0 (-1) H).
  pose proof (rfind_from_lower_bound "/" name 0 (-1) ltac:(lia)) as Hb.
  destruct (Z.ltb_spec (Py.rfind_from "/" name 0 (-1)) (-1)) as [Hlt|_];
    [lia|].
  reflexivity.
Qed.

Lemma names_without_dot_are_refused_witness :
  accepted_extension "uploads/contract_sol" = false.
Proof.
  apply (names_without_dot_are_refused "uploads/contract_sol"). reflexivity.
Defined.


(* ================================================================== *)
(** * The worker: one turn of the loop *)
(* ================================================================== *)

Lemma processing_commits_app rid l1 l2 :
  processing_commits rid (l1 ++ l2)
  = (processing_commits rid l1 + processing_commits rid l2)%nat.
Proof.
  induction l1 as [|e l1 IH]; cbn; auto.
  destruct e; auto. rewrite IH. lia.
Qed.

Lemma find_request_id s rid r :
  find_request s rid = Some r -> AuditRequest.id r = rid.
Proof.
  intros H. apply find_some in H. destruct H as [_ H].
  now apply Z.eqb_eq in H.
Qed.

Lemma int_truthy s n : Py.int s = Some n -> Py.truthy s = true.
Proof. destruct s; [vm_compute; discriminate | reflexivity]. Qed.

(** What one turn of the loop can do, whatever fails: it takes at most
    the head off the queue and at most sleeps.  A job it starts gets no
    further than the commit of [processing], which cannot be sent. *)
Lemma worker_pass_outcome env w :
  let '(w', res) := worker_pass env w in
  (store w' = store w
   \/ store w' = with_queue (tl (audit_queue (store w))) (store w))
  /\ (log w' = log w \/ log w' = log w ++ [Sleep 5]).
Proof.
  destruct w as [st pd lg].
  unfold worker_pass, process_entry. prog_unfold. cbn.
  destruct (lpop_raises env); cbn; [auto|].
  destruct (audit_queue st) as [|s q] eqn:Eq; cbn; [auto|].
  destruct (Py.truthy s); cbn; [|auto].
  destruct (Py.int s) as [rid|]; cbn; [|auto].
  destruct (get_request_raises env); cbn; [auto|].
  change (find_request (with_queue q st) rid) with (find_request st rid).
  destruct (find_request st rid) as [r|]; cbn; [|auto].
  destruct (AuditRequest.status r =? "queued")%string eqn:Es; cbn; [|auto].
  apply String.eqb_eq in Es. rewrite Es. cbn.
  destruct (commit_processing_raises env); cbn; auto.
Qed.

(** The turn that pops the id of a [queued] request: the update of its
    status carries the new value of [updated_at], an aware value, and
    cannot be sent.  The commit raises outside the [try] statement. *)
Lemma queued_job_aborted env st pd lg s q rid r :
  audit_queue st = s :: q ->
  Py.int s = Some rid ->
  find_request st rid = Some r ->
  AuditRequest.status r = "queued"%string ->
  lpop_raises env = false ->
  get_request_raises env = false ->
  worker_pass env (mkWorld st pd lg)
  = (mkWorld (with_queue q st) [] lg,
     Raise (if commit_processing_raises env then ExternalError
            else DataError)).
Proof.
  intros Eq Ei Ef Es Hl Hg. pose proof (int_truthy _ _ Ei) as Ht.
  unfold worker_pass, process_entry. prog_unfold. cbn.
  rewrite Hl. cbn. rewrite Eq. cbn. rewrite Ht. cbn. rewrite Ei. cbn.
  rewrite Hg. cbn.
  change (find_request (with_queue q st) rid) with (find_request st rid).
  rewrite Ef. cbn. rewrite Es. cbn.
  destruct (commit_processing_raises env); reflexivity.
Qed.

(** The dequeue guard: a turn of the loop whose popped entry names a
    request that is missing or not [queued] touches no table and performs
    no effect; it only consumes the entry. *)
Lemma worker_pass_guard env w s q rid :
  audit_queue (store w) = s :: q ->
  Py.int s = Some rid ->
  not_queued (store w) rid ->
  let '(w', res) := worker_pass env w in
  users (store w') = users (store w)
  /\ audit_requests (store w') = audit_requests (store w)
  /\ log w' = log w
  /\ (lpop_raises env = false ->
      audit_queue (store w') = q
      /\ (get_request_raises env = false -> res = Return tt)).
Proof.
  destruct w as [st pd lg]. cbn [store log]. intros Eq Ei Hn.
  pose proof (int_truthy _ _ Ei) as Ht.
  unfold worker_pass, process_entry. prog_unfold. cbn.
  destruct (lpop_raises env) eqn:?; cbn.
  { repeat split; auto; discriminate. }
  rewrite Eq. cbn. rewrite Ht. cbn. rewrite Ei. cbn.
  destruct (get_request_raises env) eqn:?; cbn.
  { repeat split; auto; discriminate. }
  change (find_request (with_queue q st) rid) with (find_request st rid).
  unfold not_queued in Hn.
  destruct (find_request st rid) as [r|]; cbn.
  - apply String.eqb_neq in Hn. rewrite Hn. cbn. repeat split; auto.
  - repeat split; auto.
Qed.

(** C9. The dequeue guard gives at-most-once processing.  When the entry
    at the head of the queue names a request that is missing or whose
    status is not [queued], the turn of the loop that pops it is a no-op:
    users and requests are unchanged and nothing is logged (no commit, no
    notification, no file operation); it only removes the entry and ends
    normally.  Consequently, when the same id sits twice at the head of the
    queue, two turns of the loop commit the move to [processing] at most
    once, whatever fails in either turn. *)
Theorem worker_dequeue_guard env1 env2 w s q rid :
  audit_queue (store w) = s :: q ->
  Py.int s = Some rid ->
  (not_queued (store w) rid ->
   let '(w', res) := worker_pass env1 w in
   users (store w') = users (store w)
   /\ audit_requests (store w') = audit_requests (store w)
   /\ log w' = log w
   /\ (lpop_raises env1 = false ->
       audit_queue (store w') = q
       /\ (get_request_raises env1 = false -> res = Return tt)))
  /\ (hd_error q = Some s ->
      let '(w1, _) := worker_pass env1 w in
      let '(w2, _) := worker_pass env2 w1 in
      (processing_commits rid (log w2)
       <= processing_commits rid (log w) + 1)%nat).
Proof.
  intros Eq Ei. split.
  - intros Hn. exact (worker_pass_guard env1 w s q rid Eq Ei Hn).
  - intros _.
    pose proof (worker_pass_outcome env1 w) as H1.
    destruct (worker_pass env1 w) as [w1 res1].
    pose proof (worker_pass_outcome env2 w1) as H2.
    destruct (worker_pass env2 w1) as [w2 res2].
    destruct H1 as [_ [Hl1|Hl1]], H2 as [_ [Hl2|Hl2]];
      rewrite Hl2, Hl1, ?processing_commits_app; cbn; lia.
Qed.

Lemma worker_dequeue_guard_witness :
  not_queued store_done_twice 1
  /\ (let '(w', res) := worker_pass calm (initial_world store_done_twice) in
      users (store w') = users store_done_twice
      /\ audit_requests (store w') = audit_requests store_done_twice
      /\ log w' = []
      /\ audit_queue (store w') = ["1"%string]
      /\ res = Return tt)
  /\ (let '(w1, _) := worker_pass calm (initial_world store_done_twice) in
      let '(w2, _) := worker_pass calm w1 in
      (processing_commits 1 (log w2) <= 0 + 1)%nat).
Proof.
  assert (Hn : not_queued store_done_twice 1) by (vm_compute; discriminate).
  destruct (worker_dequeue_guard calm calm (initial_world store_done_twice)
              "1"%string ["1"%string] 1 eq_refl eq_refl) as [H1 H2].
  specialize (H1 Hn). specialize (H2 eq_refl).
  split; [exact Hn|]. split; [|exact H2].
  destruct (worker_pass calm (initial_world store_done_twice)) as [w' res].
  destruct H1 as (Hu & Hr & Hl & Hq). destruct (Hq eq_refl) as [Hq' Hres].
  repeat split; auto.
Defined.

(* ================================================================== *)
(** * The worker: a job, and the loop *)
(* ================================================================== *)

(** C2, the failing runs.  The [try] statement of the loop begins only
    after the entry has been popped, parsed, looked up and moved to
    [processing]; what raises before it leaves [process_audit_queue].
    On a fresh deployment (empty tables, empty queue) one failure of
    Redis to answer the pop ends the loop, whatever turns were to
    follow.  With two jobs waiting, the first turn pops job 1 and the
    commit of [processing] raises: the loop is over, job 2 is still in
    the queue and is never looked at; and a failure of Redis ends the
    loop there in the same way. *)
Theorem job_failure_ends_loop :
  (let '(w', res) :=
     process_audit_queue [redis_down; calm; calm]
       (initial_world empty_store) in
   res = Raise ExternalError
   /\ store w' = empty_store
   /\ log w' = [])
  /\ (let '(w', res) :=
        process_audit_queue [calm; calm] (initial_world store_two_jobs) in
      res = Raise DataError
      /\ audit_queue (store w') = ["2"%string]
      /\ audit_requests (store w') = [request_1; request_2]
      /\ log w' = [])
  /\ (let '(w', res) :=
        process_audit_queue [redis_down; calm]
          (initial_world store_two_jobs) in
      res = Raise ExternalError
      /\ store w' = store_two_jobs
      /\ log w' = []).
Proof.
  vm_compute. repeat split.
Qed.


(** X12. A queued job ends the worker.  When the head of the queue names
    a request found [queued], and the queue and the row can be read, the
    commit of [processing] raises ([DataError], the new value of
    [updated_at] being an aware value for a naive column, unless the
    commit fails on its own account) outside the [try] statement: the
    loop is over whatever turns were to follow, the request is left as it
    was, its entry has been consumed and nothing has been sent. *)
Theorem queued_job_ends_the_worker env envs w s q rid r :
  audit_queue (store w) = s :: q ->
  Py.int s = Some rid ->
  find_request (store w) rid = Some r ->
  AuditRequest.status r = "queued"%string ->
  lpop_raises env = false ->
  get_request_raises env = false ->
  let '(w', res) := process_audit_queue (env :: envs) w in
  res = Raise (if commit_processing_raises env then ExternalError
               else DataError)
  /\ store w' = with_queue q (store w)
  /\ find_request (store w') rid = Some r
  /\ log w' = log w.
Proof.
  destruct w as [st pd lg]. cbn [store log]. intros Eq Ei Ef Es Hl Hg.
  cbn [process_audit_queue]. unfold bind at 1.
  rewrite (queued_job_aborted env st pd lg s q rid r Eq Ei Ef Es Hl Hg).
  cbn. auto.
Qed.

Lemma queued_job_ends_the_worker_witness :
  let '(w', res) :=
    process_audit_queue [calm; calm; calm] (initial_world store_two_jobs) in
  res = Raise DataError
  /\ store w' = with_queue ["2"%string] store_two_jobs
  /\ find_request (store w') 1 = Some request_1
  /\ log w' = [].
Proof.
  exact (queued_job_ends_the_worker calm [calm; calm]
           (initial_world store_two_jobs) "1"%string ["2"%string] 1 request_1
           eq_refl eq_refl eq_refl eq_refl eq_refl eq_refl).
Defined.

(** X14. What a turn of the worker loop never does, whatever fails: it
    changes no row of either table (no status, no timestamp, no balance)
    and neither sequence, and it sends nothing and touches no file; it
    takes at most the head off the queue, and the only effect it can
    add to the log is one sleep. *)
Theorem worker_pass_changes_no_table env w :
  let '(w', res) := worker_pass env w in
  users (store w') = users (store w)
  /\ users_id_seq (store w') = users_id_seq (store w)
  /\ audit_requests (store w') = audit_requests (store w)
  /\ audit_requests_id_seq (store w') = audit_requests_id_seq (store w)
  /\ (audit_queue (store w') = audit_queue (store w)
      \/ audit_queue (store w') = tl (audit_queue (store w)))
  /\ (log w' = log w \/ log w' = log w ++ [Sleep 5]).
Proof.
  pose proof (worker_pass_outcome env w) as H.
  destruct (worker_pass env w) as [w' res].
  destruct H as [[-> | ->] Hl]; cbn; auto 7.
Qed.

(** X15. An idle worker.  With an empty queue, and as long as the queue
    can be read, the loop only sleeps: after any number of turns the
    store is unchanged, the log has grown by one five-second sleep per
    turn, and the loop is still running. *)
Theorem idle_loop_only_sleeps envs : forall w,
  audit_queue (store w) = [] ->
  forallb (fun env => negb (lpop_raises env)) envs = true ->
  let '(w', res) := process_audit_queue envs w in
  res = Return tt
  /\ store w' = store w
  /\ log w' = log w ++ repeat (Sleep 5) (List.length envs).
Proof.
  induction envs as [|env rest IH]; intros w Hq Hall.
  - cbn. rewrite app_nil_r. auto.
  - cbn [forallb] in Hall. apply andb_true_iff in Hall.
    destruct Hall as [Henv Hrest]. apply negb_true_iff in Henv.
    cbn [process_audit_queue]. unfold bind at 1.
    assert (Hpass : worker_pass env w
                    = (mkWorld (store w) (pending w) (log w ++ [Sleep 5]),
                       Return tt)).
    { unfold worker_pass. prog_unfold. rewrite Henv, Hq. cbn.
      destruct w as [[us useq rs rseq qu] pd lg]. cbn in *. now subst qu. }
    rewrite Hpass.
    specialize (IH (mkWorld (store w) (pending w) (log w ++ [Sleep 5]))
                  Hq Hrest).
    destruct (process_audit_queue rest _) as [w' res].
    destruct IH as (Hr & Hs & Hl). cbn [store log] in *.
    split; [exact Hr|]. split; [exact Hs|].
    rewrite Hl. cbn [List.length repeat]. now rewrite <- app_assoc.
Qed.

Lemma idle_loop_only_sleeps_witness :
  let '(w', res) := process_audit_queue [calm; stormy; calm]
                      (initial_world store_alice) in
  res = Return tt
  /\ store w' = store_alice
  /\ log w' = [] ++ repeat (Sleep 5) 3.
Proof.
  exact (idle_loop_only_sleeps [calm; stormy; calm]
           (initial_world store_alice) eq_refl eq_refl).
Defined.

(** X21. A queue entry that is not a number.  When the entry popped is
    not empty and does not read as an integer, [int] raises inside the
    loop: the turn ends with [ValueError], which ends the loop; the entry
    has been consumed and nothing else has changed or happened. *)
Theorem unreadable_entry_ends_loop env w s q :
  audit_queue (store w) = s :: q ->
  Py.truthy s = true ->
  Py.int s = None ->
  lpop_raises env = false ->
  worker_pass env w
  = (mkWorld (with_queue q (store w)) [] (log w), Raise ValueError).
Proof.
  destruct w as [st pd lg]. cbn [store log]. intros Eq Ht Ei Hl.
  unfold worker_pass, process_entry. prog_unfold. cbn.
  rewrite Hl. cbn. rewrite Eq. cbn. rewrite Ht. cbn. rewrite Ei. reflexivity.
Qed.

Lemma unreadable_entry_ends_loop_witness :
  worker_pass calm (initial_world (with_queue ["abc"%string] store_job))
  = (mkWorld (with_queue [] (with_queue ["abc"%string] store_job)) [] [],
     Raise ValueError).
Proof.
  exact (unreadable_entry_ends_loop calm
           (initial_world (with_queue ["abc"%string] store_job))
           "abc"%string [] eq_refl eq_refl eq_refl eq_refl).
Defined.

Lemma find_map_stable {A} (p : A -> bool) (g : A -> A) (l : list A) :
  (forall x, p (g x) = p x) ->
  find p (map g l) = option_map g (find p l).
Proof.
  intros Hp. induction l as [|x l IH]; cbn; auto.
  rewrite Hp. destruct (p x); auto.
Qed.

(** Closes a goal [l = l ++ ?suffix] on logs. *)
Ltac log_suffix :=
  first [ symmetry; apply app_nil_r
        | rewrite <- ?app_assoc; reflexivity ].

(* ================================================================== *)
(** * Users: lazy creation *)
(* ================================================================== *)

Lemma find_app_none {A} (p : A -> bool) (l : list A) (x : A) :
  find p l = None -> p x = true -> find p (l ++ [x]) = Some x.
Proof.
  intros Hn Hx. induction l as [|y l IH]; cbn in *.
  - now rewrite Hx.
  - destruct (p y); [discriminate | auto].
Qed.

Lemma found_by_telegram_id s tid u :
  find_user_by_telegram_id s tid = Some u -> User.telegram_id u = tid.
Proof.
  intros H. unfold find_user_by_telegram_id in H.
  apply find_some in H. now apply Z.eqb_eq.
Qed.

Lemma find_by_telegram_id_set_credits s uid v tid :
  find_user_by_telegram_id (apply_write s (SetAvailableAudits uid v)) tid
  = option_map (fun u => if User.id u =? uid
                         then User.with_available_audits v u else u)
               (find_user_by_telegram_id s tid).
Proof.
  unfold find_user_by_telegram_id, apply_write. cbn. apply find_map_stable.
  intros u. destruct (User.id u =? uid); reflexivity.
Qed.

(** X1. [get_or_create_user] in a fresh session, when the database answers:
    it returns the sender's row, which a lookup by Telegram id then finds.
    A known sender leaves the world untouched; an unknown one gets one new
    row, appended with no credit, and nothing else changes.  Calling it
    again returns the same row and changes nothing. *)
Theorem get_or_create_user_round_trip f m w :
  pending w = [] ->
  select_user_raises f = false ->
  create_commit_raises f = false ->
  let '(w1, r1) := get_or_create_user f m w in
  exists u,
    r1 = Return u
    /\ find_user_by_telegram_id (store w1) (Message.from_user_id m) = Some u
    /\ match find_user_by_telegram_id (store w) (Message.from_user_id m) with
       | Some u0 => u = u0 /\ w1 = w
       | None =>
           u = new_user (store w) m
           /\ users (store w1) = users (store w) ++ [u]
           /\ audit_requests (store w1) = audit_requests (store w)
           /\ audit_queue (store w1) = audit_queue (store w)
       end
    /\ get_or_create_user f m w1 = (w1, Return u).
Proof.
  destruct w as [st pd lg]. cbn [pending store]. intros -> Hs Hc.
  unfold get_or_create_user. prog_unfold. rewrite Hs, Hc. cbn.
  destruct (find_user_by_telegram_id st (Message.from_user_id m)) as [u|] eqn:Eu;
    cbn.
  - exists u. cbn. rewrite Eu. auto.
  - set (nu := User.mk (users_id_seq st + 1) _ _ _ _ 0).
    assert (Hf : find_user_by_telegram_id (apply_write st (InsertUser nu))
                   (Message.from_user_id m) = Some nu).
    { unfold find_user_by_telegram_id, apply_write. cbn.
      apply find_app_none; [exact Eu | apply Z.eqb_refl]. }
    exists nu. cbn. rewrite Hf. repeat split.
Qed.

Lemma get_or_create_user_round_trip_witness :
  let '(w1, r1) := get_or_create_user no_faults bob_sol
                     (initial_world store_alice) in
  exists u,
    r1 = Return u
    /\ find_user_by_telegram_id (store w1) 88 = Some u
    /\ match find_user_by_telegram_id store_alice 88 with
       | Some u0 => u = u0 /\ w1 = initial_world store_alice
       | None =>
           u = new_user store_alice bob_sol
           /\ users (store w1) = [alice] ++ [u]
           /\ audit_requests (store w1) = []
           /\ audit_queue (store w1) = []
       end
    /\ get_or_create_user no_faults bob_sol w1 = (w1, Return u).
Proof.
  exact (get_or_create_user_round_trip no_faults bob_sol
           (initial_world store_alice) eq_refl eq_refl eq_refl).
Defined.

(* ================================================================== *)
(** * Credits: free grant, status, purchase *)
(* ================================================================== *)

(** X2. [cmd_free], when the sender's row can be read.  A sender whose
    balance is [0] is granted two credits (unless the commit fails, which
    leaves the store as it was), also when the confirmation cannot be
    sent; a sender with any other balance gets the refusal and the store
    does not change.  A sender without a row is created and granted the
    two credits in the same call. *)
Theorem cmd_free_grants_on_zero_balance f m w :
  select_user_raises f = false ->
  let '(w', r) := cmd_free f m w in
  let tid := Message.from_user_id m in
  match find_user_by_telegram_id (store w) tid with
  | Some u =>
      if User.available_audits u =? 0 then
        if commit_raises f then store w' = store w /\ log w' = log w
        else
          store w' = apply_write (store w) (SetAvailableAudits (User.id u) 2)
          /\ find_user_by_telegram_id (store w') tid
             = Some (User.with_available_audits 2 u)
          /\ log w' = log w ++ Committed [SetAvailableAudits (User.id u) 2]
                            :: (if reply_raises f then []
                                else [Reply TextFreeGranted])
      else
        store w' = store w
        /\ log w' = log w ++ (if reply_raises f then []
                              else [Reply TextFreeAlready])
  | None =>
      if create_commit_raises f then store w' = store w
      else if commit_raises f
           then store w' = apply_write (store w) (InsertUser (new_user (store w) m))
           else find_user_by_telegram_id (store w') tid
                = Some (User.with_available_audits 2 (new_user (store w) m))
  end.
Proof.
  destruct w as [st pd lg]. cbn [store log]. intros Hs.
  unfold cmd_free, get_or_create_user. prog_unfold. rewrite Hs. cbn.
  destruct (find_user_by_telegram_id st (Message.from_user_id m)) as [u|] eqn:Eu;
    cbn.
  - destruct (User.available_audits u =? 0) eqn:E0; cbn.
    + apply Z.eqb_eq in E0. rewrite E0. cbn.
      destruct (commit_raises f); cbn; [now split|].
      destruct (reply_raises f); cbn; (split; [reflexivity|]);
        (split; [ rewrite find_by_telegram_id_set_credits, Eu; cbn;
                  now rewrite Z.eqb_refl
                | now rewrite <- ?app_assoc ]).
    + destruct (reply_raises f); cbn; rewrite ?app_nil_r; now split.
  - destruct (create_commit_raises f); cbn; [reflexivity|].
    destruct (commit_raises f); cbn; [reflexivity|].
    assert (H : find_user_by_telegram_id
                  (apply_write st (InsertUser (new_user st m)))
                  (Message.from_user_id m) = Some (new_user st m)).
    { unfold find_user_by_telegram_id, apply_write. cbn.
      apply find_app_none; [exact Eu | apply Z.eqb_refl]. }
    destruct (reply_raises f); cbn;
      rewrite find_by_telegram_id_set_credits;
      unfold new_user in H; rewrite H; cbn; now rewrite Z.eqb_refl.
Qed.

Lemma cmd_free_grants_on_zero_balance_witness :
  let '(w', r) := cmd_free no_faults alice_sol
                    (initial_world store_alice_broke) in
  store w' = apply_write store_alice_broke (SetAvailableAudits 1 2)
  /\ find_user_by_telegram_id (store w') 77
     = Some (User.with_available_audits 2 alice_broke)
  /\ log w' = [Committed [SetAvailableAudits 1 2]; Reply TextFreeGranted].
Proof.
  exact (cmd_free_grants_on_zero_balance no_faults alice_sol
           (initial_world store_alice_broke) eq_refl).
Defined.

(** X3. [cmd_status], when nothing fails, reports the stored balance and
    changes no row of a known sender; for an unknown sender it creates the
    row and reports [0]. *)
Theorem cmd_status_reports_balance f m w :
  select_user_raises f = false ->
  create_commit_raises f = false ->
  commit_raises f = false ->
  reply_raises f = false ->
  let '(w', r) := cmd_status f m w in
  r = Return tt
  /\ match find_user_by_telegram_id (store w) (Message.from_user_id m) with
     | Some u =>
         store w' = store w
         /\ log w' = log w ++ [Committed [];
                               Reply (TextStatus (User.available_audits u))]
     | None =>
         store w' = apply_write (store w) (InsertUser (new_user (store w) m))
         /\ log w' = log w ++ [Committed [InsertUser (new_user (store w) m)];
                               Committed []; Reply (TextStatus 0)]
     end.
Proof.
  destruct w as [st pd lg]. cbn [store log]. intros Hs Hc Hk Hr.
  unfold cmd_status, get_or_create_user. prog_unfold.
  rewrite Hs, Hc, Hk, Hr. cbn.
  destruct (find_user_by_telegram_id st (Message.from_user_id m)) as [u|];
    cbn; rewrite <- ?app_assoc; auto.
Qed.

Lemma cmd_status_reports_balance_witness :
  let '(w', r) := cmd_status no_faults alice_sol (initial_world store_alice) in
  r = Return tt
  /\ store w' = store_alice
  /\ log w' = [Committed []; Reply (TextStatus 1)].
Proof.
  exact (cmd_status_reports_balance no_faults alice_sol
           (initial_world store_alice) eq_refl eq_refl eq_refl eq_refl).
Defined.

(** X4. [cmd_buy] never changes the store, and it shows the purchase
    offer for a quantity exactly when the arguments read as that integer,
    the integer is positive and the reply can be sent. *)
Theorem cmd_buy_offers_positive_only f m w :
  let '(w', r) := cmd_buy f m w in
  store w' = store w
  /\ exists l, log w' = log w ++ l
     /\ forall q, In (Reply (TextBuyOffer q)) l
                  <-> (reply_raises f = false
                       /\ Py.int (Message.args m) = Some q /\ 0 < q).
Proof.
  destruct w as [st pd lg]. cbn [store log].
  unfold cmd_buy, external. prog_unfold.
  assert (Hempty : Py.truthy (Message.args m) = false ->
                   Py.int (Message.args m) = None).
  { destruct (Message.args m); [reflexivity | discriminate]. }
  destruct (Py.truthy (Message.args m)); cbn;
    [| rewrite (Hempty eq_refl) ];
    [ destruct (Py.int (Message.args m)) as [q0|]; cbn;
      [ destruct (Z.leb_spec q0 0) as [Hq|Hq] |] |];
    destruct (reply_raises f); cbn;
    (split; [reflexivity|]); eexists; (split; [log_suffix|]);
    intros q; cbn;
    (split;
     [ intros H; repeat (destruct H as [H|H]); try contradiction;
       try discriminate H; injection H as <-; auto
     | intros (H1 & H2 & H3); try discriminate;
       injection H2 as <-; first [lia | now left] ]).
Qed.


(* ================================================================== *)
(** * Purchase confirmation *)
(* ================================================================== *)

Lemma split_lacking sep s : lacks sep s = true -> Py.split sep s = [s].
Proof.
  induction s as [|a r IH]; cbn; [reflexivity|].
  intros H. apply andb_true_iff in H. destruct H as [Ha Hr].
  apply negb_true_iff in Ha. rewrite Ha, (IH Hr). reflexivity.
Qed.

Lemma digits_lack_colon s : all_digits s = true -> lacks ":" s = true.
Proof.
  induction s as [|a r IH]; cbn; [reflexivity|].
  intros H. apply andb_true_iff in H. destruct H as [Ha Hr].
  rewrite (IH Hr), andb_true_r.
  destruct a as [[|] [|] [|] [|] [|] [|] [|] [|]];
    try reflexivity; vm_compute in Ha; discriminate Ha.
Qed.

Lemma uint_lacks_colon d : lacks ":" (NilZero.string_of_uint d) = true.
Proof.
  unfold NilZero.string_of_uint.
  destruct d; try reflexivity;
    apply digits_lack_colon, (PyFacts.string_of_uint_digits (_ d)).
Qed.

(** The text of an integer holds no colon. *)
Lemma str_lacks_colon n : lacks ":" (Py.str n) = true.
Proof.
  unfold Py.str, NilZero.string_of_int.
  destruct (Z.to_int n) as [d|d]; [apply uint_lacks_colon|].
  cbn. apply uint_lacks_colon.
Qed.

Lemma split_check_payment_data q :
  Py.split ":" (check_payment_data q) = ["check_payment"%string; Py.str q].
Proof.
  unfold check_payment_data. cbn.
  now rewrite (split_lacking ":" (Py.str q) (str_lacks_colon q)).
Qed.

(** X5. The payload that [cmd_buy] attaches to its confirmation button is
    read back by the confirmation handler: for every quantity, the
    dispatcher's filter accepts [check_payment:<quantity>] and the handler
    parses exactly that quantity out of it. *)
Theorem check_payment_data_round_trip (quantity tid : Z) (w : World) :
  check_payment_filter (CallbackQuery.mk tid (check_payment_data quantity))
  = true
  /\ parse_check_payment (check_payment_data quantity) w
     = (w, Return quantity)
  /\ confirmed_quantity (CallbackQuery.mk tid (check_payment_data quantity))
     = Some quantity.
Proof.
  split;
    [unfold check_payment_filter, check_payment_data; cbn;
     now destruct (Py.str quantity)|].
  split.
  - unfold parse_check_payment.
    now rewrite split_check_payment_data, PyFacts.int_str.
  - unfold confirmed_quantity. cbn [CallbackQuery.data].
    now rewrite split_check_payment_data, PyFacts.int_str.
Qed.

(** X6. A confirmation whose payload does not split into exactly two
    fields, or whose second field is not an integer, is refused: the
    handler only answers that the data is invalid; the store is not
    touched and no session is opened. *)
Theorem malformed_confirmation_is_refused f c w :
  confirmed_quantity c = None ->
  let '(w', r) := callback_check_payment f c w in
  store w' = store w
  /\ pending w' = pending w
  /\ log w' = log w ++ (if answer_raises f then []
                        else [Answer TextPaymentInvalid])
  /\ r = (if answer_raises f then Raise ExternalError else Return tt).
Proof.
  destruct w as [st pd lg]. cbn [store pending log].
  unfold confirmed_quantity, callback_check_payment, parse_check_payment.
  destruct (Py.split ":" (CallbackQuery.data c)) as [|a [|b [|d l]]];
    try (intros _; prog_unfold; cbn;
         destruct (answer_raises f); cbn; rewrite ?app_nil_r; now auto).
  intros ->. prog_unfold. cbn.
  destruct (answer_raises f); cbn; rewrite ?app_nil_r; auto.
Qed.

Lemma malformed_confirmation_is_refused_witness :
  let '(w', r) := callback_check_payment no_faults confirm_garbled
                    (initial_world store_alice) in
  store w' = store_alice
  /\ pending w' = []
  /\ log w' = [Answer TextPaymentInvalid]
  /\ r = Return tt.
Proof.
  exact (malformed_confirmation_is_refused no_faults confirm_garbled
           (initial_world store_alice) eq_refl).
Defined.

(** X7. A well-formed confirmation from a sender who has no row is
    refused with the user-not-found answer; nothing is created or
    credited. *)
Theorem confirmation_needs_known_user f c w q :
  confirmed_quantity c = Some q ->
  select_user_raises f = false ->
  find_user_by_telegram_id (store w) (CallbackQuery.from_user_id c) = None ->
  let '(w', r) := callback_check_payment f c w in
  store w' = store w
  /\ log w' = log w ++ (if answer_raises f then []
                        else [Answer TextUserNotFound])
  /\ r = (if answer_raises f then Raise ExternalError else Return tt).
Proof.
  destruct w as [st pd lg]. cbn [store pending log].
  unfold confirmed_quantity, callback_check_payment, parse_check_payment.
  destruct (Py.split ":" (CallbackQuery.data c)) as [|a [|b [|d l]]];
    try discriminate.
  intros -> Hs Hu. prog_unfold. rewrite Hs. cbn. rewrite Hu. cbn.
  destruct (answer_raises f); cbn; rewrite ?app_nil_r; auto.
Qed.

Lemma confirmation_needs_known_user_witness :
  let '(w', r) := callback_check_payment no_faults confirm_stranger
                    (initial_world store_alice) in
  store w' = store_alice
  /\ log w' = [Answer TextUserNotFound]
  /\ r = Return tt.
Proof.
  exact (confirmation_needs_known_user no_faults confirm_stranger
           (initial_world store_alice) 3 eq_refl eq_refl eq_refl).
Defined.

(** X8. A well-formed confirmation from a known sender, when the row can
    be read and the commit succeeds, adds exactly the quantity of the
    payload to that sender's balance: the lookup afterwards finds the row
    with the new balance, the rows of users with another id are found as
    before, requests and queue are unchanged, and the message sent quotes
    the quantity and the new balance.  A quantity of zero leaves the row
    as it is, and the transaction committed is empty. *)
Theorem confirmation_credits_quantity f c w q u :
  confirmed_quantity c = Some q ->
  select_user_raises f = false ->
  commit_raises f = false ->
  find_user_by_telegram_id (store w) (CallbackQuery.from_user_id c) = Some u ->
  let '(w', r) := callback_check_payment f c w in
  let balance := User.available_audits u + q in
  find_user_by_telegram_id (store w') (CallbackQuery.from_user_id c)
  = Some (User.with_available_audits balance u)
  /\ (forall tid' u',
        find_user_by_telegram_id (store w) tid' = Some u' ->
        User.id u' <> User.id u ->
        find_user_by_telegram_id (store w') tid' = Some u')
  /\ audit_requests (store w') = audit_requests (store w)
  /\ audit_queue (store w') = audit_queue (store w)
  /\ log w' = log w ++ Committed (if q =? 0 then []
                                  else [SetAvailableAudits (User.id u)
                                          balance])
                    :: (if answer_raises f then []
                        else Answer TextPaymentConfirmed
                             :: (if send_message_raises f then []
                                 else [SendMessage
                                         (CallbackQuery.from_user_id c)
                                         (TextCredited q balance)])).
Proof.
  destruct w as [st pd lg]. cbn [store pending log].
  unfold confirmed_quantity, callback_check_payment, parse_check_payment.
  destruct (Py.split ":" (CallbackQuery.data c)) as [|a [|b [|d l]]];
    try discriminate.
  intros -> Hs Hc Hu. prog_unfold. rewrite Hs. cbn. rewrite Hu. cbn.
  destruct (Z.eqb_spec q 0) as [-> | Hq].
  - (* nothing to write *)
    rewrite Z.add_0_r, Z.eqb_refl. cbn. rewrite Hc. cbn.
    assert (Hsame : User.with_available_audits (User.available_audits u) u
                    = u) by now destruct u.
    destruct (answer_raises f); cbn;
      [| destruct (send_message_raises f); cbn ];
      rewrite <- ?app_assoc, ?Hsame; cbn; repeat split; auto.
  - destruct (Z.eqb_spec (User.available_audits u + q)
                (User.available_audits u)) as [He|_]; [lia|].
    cbn. rewrite Hc. cbn.
    assert (H1 : find_user_by_telegram_id
                   (apply_write st
                      (SetAvailableAudits (User.id u)
                         (User.available_audits u + q)))
                   (CallbackQuery.from_user_id c)
                 = Some (User.with_available_audits
                           (User.available_audits u + q) u)).
    { rewrite find_by_telegram_id_set_credits, Hu. cbn.
      now rewrite Z.eqb_refl. }
    assert (H2 : forall tid' u',
               find_user_by_telegram_id st tid' = Some u' ->
               User.id u' <> User.id u ->
               find_user_by_telegram_id
                 (apply_write st
                    (SetAvailableAudits (User.id u)
                       (User.available_audits u + q))) tid' = Some u').
    { intros tid' u' Hf Hne. rewrite find_by_telegram_id_set_credits, Hf. cbn.
      apply Z.eqb_neq in Hne. now rewrite Hne. }
    destruct (answer_raises f); cbn;
      [| destruct (send_message_raises f); cbn ];
      rewrite <- ?app_assoc; cbn; repeat split; auto.
Qed.

Lemma confirmation_credits_quantity_witness :
  let '(w', r) := callback_check_payment no_faults confirm_three
                    (initial_world store_alice) in
  find_user_by_telegram_id (store w') 77
  = Some (User.with_available_audits 4 alice)
  /\ (forall tid' u',
        find_user_by_telegram_id store_alice tid' = Some u' ->
        User.id u' <> User.id alice ->
        find_user_by_telegram_id (store w') tid' = Some u')
  /\ audit_requests (store w') = []
  /\ audit_queue (store w') = []
  /\ log w' = [Committed [SetAvailableAudits 1 4];
               Answer TextPaymentConfirmed;
               SendMessage 77 (TextCredited 3 4)].
Proof.
  exact (confirmation_credits_quantity no_faults confirm_three
           (initial_world store_alice) 3 alice
           eq_refl eq_refl eq_refl eq_refl).
Defined.

(* ================================================================== *)
(** * What an action can do to the store *)
(* ================================================================== *)

Lemma new_user_fresh s m :
  find_user_by_telegram_id s (Message.from_user_id m) = None ->
  fresh_user s (new_user s m).
Proof. intros H. repeat split. exact H. Qed.

(** Closes a leaf of the case analysis of a handler that writes users. *)
Ltac transition_leaf :=
  cbn;
  first
    [ apply t_same
    | apply t_new; unfold fresh_user; cbn; now auto
    | match goal with
      | |- transition _ _ (apply_write (apply_write _ (InsertUser ?nu))
                             (SetAvailableAudits _ ?v)) =>
          apply (t_new_credit _ _ nu v);
          [ unfold fresh_user; cbn; now auto | cbn; now auto ]
      end
    | eapply t_credit;
      [ eassumption
      | cbn;
        match goal with
        | H : (_ =? 0) = true |- _ => apply Z.eqb_eq in H; split; lia
        end ] ].

Lemma transition_cmd_start f m w :
  transition (Start f m) (store w) (store (fst (cmd_start f m w))).
Proof.
  destruct w as [st pd lg]. unfold cmd_start, get_or_create_user.
  prog_unfold. cbn. repeat exec_step; transition_leaf.
Qed.

Lemma transition_cmd_status f m w :
  transition (Status f m) (store w) (store (fst (cmd_status f m w))).
Proof.
  destruct w as [st pd lg]. unfold cmd_status, get_or_create_user.
  prog_unfold. cbn. repeat exec_step; transition_leaf.
Qed.

Lemma transition_cmd_free f m w :
  transition (Free f m) (store w) (store (fst (cmd_free f m w))).
Proof.
  destruct w as [st pd lg]. unfold cmd_free, get_or_create_user.
  prog_unfold. cbn. repeat exec_step; transition_leaf.
Qed.

Lemma transition_on_callback_query f c w :
  transition (CheckPayment f c) (store w)
    (store (fst (on_callback_query f c w))).
Proof.
  destruct w as [st pd lg].
  unfold on_callback_query, callback_check_payment, parse_check_payment.
  destruct (check_payment_filter c); [|apply t_same].
  destruct (Py.split ":" (CallbackQuery.data c)) as [|a [|b [|d l]]] eqn:Es;
    prog_unfold; cbn;
    try (destruct (answer_raises f); cbn; apply t_same).
  destruct (Py.int b) as [q|] eqn:Ei; cbn;
    repeat exec_step;
    first [ apply t_same
          | eapply t_credit;
            [ eassumption
            | exists q; split;
              [ unfold confirmed_quantity; now rewrite Es | reflexivity ] ] ].
Qed.

Lemma transition_cmd_audit f unique_id m w :
  transition (Audit f unique_id m) (store w)
    (store (fst (cmd_audit f unique_id m w))).
Proof.
  pose proof (cmd_audit_outcome f unique_id m w) as H.
  destruct (cmd_audit f unique_id m w) as [w' r]. cbn [fst].
  destruct H as [[-> | [Hn ->]] _]; [apply t_same|].
  apply t_new. now apply new_user_fresh.
Qed.

Lemma transition_worker_pass env w :
  transition (WorkerTurn env) (store w) (store (fst (worker_pass env w))).
Proof.
  pose proof (worker_pass_outcome env w) as H.
  destruct (worker_pass env w) as [w' r]. cbn [fst].
  destruct H as [[-> | ->] _]; [apply t_same | apply t_pop].
Qed.

Lemma perform_transition a w :
  transition a (store w) (store (fst (perform a w))).
Proof.
  destruct a; cbn [perform].
  - apply transition_cmd_start.
  - unfold cmd_about, external. destruct (reply_raises f); apply t_same.
  - apply transition_cmd_free.
  - unfold cmd_buy, external.
    destruct (negb _); [destruct (reply_raises f); apply t_same|].
    destruct (Py.int _) as [q|]; [|destruct (reply_raises f); apply t_same].
    destruct (q <=? 0); destruct (reply_raises f); apply t_same.
  - apply transition_on_callback_query.
  - apply transition_cmd_status.
  - apply transition_cmd_audit.
  - unfold audit_no_file, external. destruct (reply_raises f); apply t_same.
  - apply transition_worker_pass.
Qed.

(* ================================================================== *)
(** * Requests and queue along a history *)
(* ================================================================== *)

Lemma transition_requests a s s' :
  transition a s s' ->
  audit_requests s' = audit_requests s
  /\ audit_requests_id_seq s' = audit_requests_id_seq s
  /\ (audit_queue s' = audit_queue s
      \/ audit_queue s' = tl (audit_queue s)).
Proof. destruct 1; cbn; auto. Qed.

Lemma skipn_tl {A} k (l : list A) : skipn k (tl l) = skipn (S k) l.
Proof. destruct l; [now destruct k | reflexivity]. Qed.

Lemma tl_skipn {A} k (l : list A) : tl (skipn k l) = skipn (S k) l.
Proof.
  revert l. induction k as [|k IH]; intros l; [reflexivity|].
  destruct l as [|x l]; [reflexivity|]. cbn [skipn]. rewrite IH.
  reflexivity.
Qed.

(** No action writes the table of requests, and the queue only loses
    entries at its head. *)
Lemma requests_run acts : forall w,
  audit_requests (store (run acts w)) = audit_requests (store w)
  /\ audit_requests_id_seq (store (run acts w))
     = audit_requests_id_seq (store w)
  /\ exists k, audit_queue (store (run acts w))
               = skipn k (audit_queue (store w)).
Proof.
  induction acts as [|a acts IH]; intros w; cbn [run].
  - repeat split. now exists O.
  - destruct (IH (fst (perform a w))) as (Hr & Hs & k & Hq).
    destruct (transition_requests _ _ _ (perform_transition a w))
      as (Hr' & Hs' & Hq').
    rewrite Hr, Hs, Hq, Hr', Hs'. repeat split.
    destruct Hq' as [-> | ->]; [now exists k|].
    exists (S k). apply skipn_tl.
Qed.





(** X13. No request is ever stored.  From any state and along every
    history of the bot, whatever fails, the table of requests stays as
    it was, row for row and column for column, its sequence does not
    move, and the queue only loses entries at its head: the bot as
    deployed adds no request and no queue entry.  From the empty store
    both stay empty. *)
Theorem no_request_is_ever_stored acts w :
  audit_requests (store (run acts w)) = audit_requests (store w)
  /\ audit_requests_id_seq (store (run acts w))
     = audit_requests_id_seq (store w)
  /\ (exists k, audit_queue (store (run acts w))
                = skipn k (audit_queue (store w)))
  /\ (store w = empty_store ->
      audit_requests (store (run acts w)) = []
      /\ audit_queue (store (run acts w)) = []).
Proof.
  destruct (requests_run acts w) as (Hr & Hs & k & Hq).
  repeat (split; [first [assumption | now exists k]|]).
  intros He. rewrite Hr, Hq, He. cbn. now rewrite skipn_nil.
Qed.


Lemma In_skipn {A} k (l : list A) x : In x (skipn k l) -> In x l.
Proof.
  intros H. rewrite <- (firstn_skipn k l). apply in_or_app. now right.
Qed.

Lemma NoDup_skipn {A} k (l : list A) : NoDup l -> NoDup (skipn k l).
Proof.
  intros H. rewrite <- (firstn_skipn k l) in H.
  now apply NoDup_app_remove_l in H.
Qed.

(** X18. Keys are kept.  From any state in which requests are told apart
    by their id, no id exceeds the sequence and the queue holds the
    decimal texts of such ids, each once, the same holds after every
    history of the bot: no two requests share an id, no entry is in the
    queue twice, every entry reads back as an id that has been issued,
    and the id the next request would get names no request. *)
Theorem request_keys_are_kept acts w :
  requests_numbered (store w) ->
  let s := store (run acts w) in
  NoDup (map AuditRequest.id (audit_requests s))
  /\ NoDup (audit_queue s)
  /\ (forall e, In e (audit_queue s) ->
        exists n, e = Py.str n /\ Py.int e = Some n
                  /\ n <= audit_requests_id_seq s)
  /\ find_request s (audit_requests_id_seq s + 1) = None.
Proof.
  intros (Hn & Hb & Hq & He). cbn zeta.
  destruct (requests_run acts w) as (Hr & Hs & k & Hk).
  unfold find_request. rewrite Hr, Hs, Hk.
  split; [exact Hn|]. split; [now apply NoDup_skipn|]. split.
  - intros e Hin. apply In_skipn in Hin.
    destruct (He e Hin) as (n & -> & Hle).
    exists n. split; [reflexivity|]. split; [apply PyFacts.int_str | exact Hle].
  - destruct (find _ _) as [r|] eqn:E; [|reflexivity].
    apply find_some in E. destruct E as [Hin E].
    apply Z.eqb_eq in E. specialize (Hb r Hin). lia.
Qed.

Lemma store_two_jobs_numbered : requests_numbered store_two_jobs.
Proof.
  split; [|split; [|split]].
  - cbn. repeat constructor; cbn; intuition discriminate.
  - intros r [<- | [<- | []]]; cbn; lia.
  - repeat constructor; cbn; intuition discriminate.
  - intros e [<- | [<- | []]]; [exists 1 | exists 2];
      (split; [reflexivity | cbn; lia]).
Qed.

Lemma request_keys_are_kept_witness :
  let s := store (run a_purchase_and_a_job (initial_world store_two_jobs)) in
  NoDup (map AuditRequest.id (audit_requests s))
  /\ NoDup (audit_queue s)
  /\ (forall e, In e (audit_queue s) ->
        exists n, e = Py.str n /\ Py.int e = Some n
                  /\ n <= audit_requests_id_seq s)
  /\ find_request s (audit_requests_id_seq s + 1) = None.
Proof.
  exact (request_keys_are_kept a_purchase_and_a_job
           (initial_world store_two_jobs) store_two_jobs_numbered).
Defined.

Lemma find_user_set_credits s uid v uid' :
  find_user (apply_write s (SetAvailableAudits uid v)) uid'
  = option_map (fun u => if User.id u =? uid
                         then User.with_available_audits v u else u)
               (find_user s uid').
Proof.
  unfold find_user, apply_write. cbn. apply find_map_stable.
  intros u. destruct (User.id u =? uid); reflexivity.
Qed.

Lemma find_user_id s uid u : find_user s uid = Some u -> User.id u = uid.
Proof.
  intros H. unfold find_user in H. apply find_some in H.
  now apply Z.eqb_eq.
Qed.

(** No action removes a user or changes a key. *)
Lemma transition_keeps_users a s s' uid u :
  transition a s s' ->
  find_user s uid = Some u ->
  exists u', find_user s' uid = Some u' /\ User.id u' = uid.
Proof.
  intros Ht Hf. pose proof (find_user_id _ _ _ Hf) as Hid.
  assert (Hins : forall nu,
             find_user (apply_write s (InsertUser nu)) uid = Some u).
  { intros nu. unfold find_user, apply_write in *. cbn.
    now apply find_app_found. }
  destruct Ht as [| |nu _|nu v _ _|tid u0 v _ _].
  - eauto.
  - eauto.
  - eauto.
  - rewrite find_user_set_credits, Hins. cbn.
    eexists. split; [reflexivity|]. now destruct (User.id u =? User.id nu).
  - rewrite find_user_set_credits, Hf. cbn.
    eexists. split; [reflexivity|]. now destruct (User.id u =? User.id u0).
Qed.

Lemma owners_run acts : forall w,
  owners_exist (store w) -> owners_exist (store (run acts w)).
Proof.
  induction acts as [|a acts IH]; intros w Hw; cbn [run]; [exact Hw|].
  apply IH. intros r Hin.
  pose proof (perform_transition a w) as Ht.
  destruct (transition_requests _ _ _ Ht) as (Hr & _).
  rewrite Hr in Hin. destruct (Hw r Hin) as (u & Hu & _).
  destruct (transition_keeps_users _ _ _ _ _ Ht Hu) as (u' & Hu' & Hid).
  eauto.
Qed.

(** X22. Requests have owners.  From any state in which the user id of
    every stored request is the key of a stored user (the empty store is
    one), the same holds after every history of the bot: no action
    removes a user or changes a key, so the worker's lookup of the owner
    of a request always finds a row. *)
Theorem requests_have_owners acts w :
  (forall r, In r (audit_requests (store w)) ->
     exists u, find_user (store w) (AuditRequest.user_id r) = Some u
               /\ User.id u = AuditRequest.user_id r) ->
  let s := store (run acts w) in
  forall r, In r (audit_requests s) ->
    exists u, find_user s (AuditRequest.user_id r) = Some u
              /\ User.id u = AuditRequest.user_id r.
Proof.
  intros Hw. exact (owners_run acts w Hw).
Qed.

Lemma requests_have_owners_witness :
  let s := store (run a_purchase_and_a_job (initial_world store_job)) in
  In request_1 (audit_requests s)
  /\ exists u, find_user s (AuditRequest.user_id request_1) = Some u
               /\ User.id u = AuditRequest.user_id request_1.
Proof.
  assert (Hw : forall r, In r (audit_requests store_job) ->
             exists u, find_user store_job (AuditRequest.user_id r) = Some u
                       /\ User.id u = AuditRequest.user_id r).
  { intros r [<- | []]. exists alice_broke. split; reflexivity. }
  assert (Hin : In request_1
                  (audit_requests
                     (store (run a_purchase_and_a_job
                               (initial_world store_job))))).
  { destruct (requests_run a_purchase_and_a_job (initial_world store_job))
      as [-> _]. now left. }
  cbn zeta. split; [exact Hin|].
  exact (requests_have_owners a_purchase_and_a_job (initial_world store_job)
           Hw request_1 Hin).
Defined.

(* ================================================================== *)
(** * Credits *)
(* ================================================================== *)

(** C4, the failing run.  [cmd_buy] refuses a quantity that is not
    positive, but [callback_check_payment] adds whatever integer the
    payload carries: on the payload [check_payment:-5] the filter lets the
    query through, and a user holding no credit is left with [-5]. *)
Theorem negative_confirmation_overdraws :
  check_payment_filter negative_confirmation = true
  /\ let '(w', res) :=
       on_callback_query no_faults negative_confirmation
         (initial_world store_alice_broke) in
     option_map User.available_audits
       (find_user_by_telegram_id (store w') 77) = Some (-5)
     /\ log w' = [Committed [SetAvailableAudits 1 (-5)];
                  Answer TextPaymentConfirmed;
                  SendMessage 77 (TextCredited (-5) (-5))]
     /\ res = Return tt.
Proof.
  vm_compute. repeat split.
Qed.

(** The sibling path: [cmd_buy] never touches the store, and answers a
    quantity that is not positive with the invalid-quantity reply. *)
Lemma cmd_buy_rejects_non_positive f m w q :
  Py.int (Message.args m) = Some q -> q <= 0 ->
  cmd_buy f m w = external (reply_raises f) (Reply TextBuyInvalid) w
  /\ store (fst (cmd_buy f m w)) = store w.
Proof.
  intros Hq Hle. unfold cmd_buy.
  rewrite (int_truthy _ _ Hq), Hq. cbn [negb].
  destruct (Z.leb_spec q 0); [|lia].
  split; [reflexivity|]. unfold external. now destruct (reply_raises f).
Qed.

Lemma credits_insert_user s nu :
  credits_nonneg s -> 0 <= User.available_audits nu ->
  credits_nonneg (apply_write s (InsertUser nu)).
Proof.
  intros Hs Hn u Hin. unfold apply_write in Hin. cbn in Hin.
  apply in_app_or in Hin. destruct Hin as [Hin | [<- | []]]; auto.
Qed.

Lemma credits_set s uid v :
  credits_nonneg s -> 0 <= v ->
  credits_nonneg (apply_write s (SetAvailableAudits uid v)).
Proof.
  intros Hs Hv u Hin. unfold apply_write in Hin. cbn in Hin.
  apply in_map_iff in Hin. destruct Hin as (u0 & <- & Hin).
  destruct (User.id u0 =? uid); cbn; auto.
Qed.

Lemma found_user_credits s tid u :
  credits_nonneg s -> find_user_by_telegram_id s tid = Some u ->
  0 <= User.available_audits u.
Proof.
  intros Hs Hf. apply Hs. unfold find_user_by_telegram_id in Hf.
  now apply find_some in Hf.
Qed.

(** A balance written by an action other than the confirmation of a
    negative quantity is not negative. *)
Lemma credited_nonneg a u v :
  no_negative_confirmation a -> 0 <= User.available_audits u ->
  credited a u v -> 0 <= v.
Proof.
  destruct a; cbn; try contradiction.
  - intros _ _ [_ ->]. lia.
  - intros Hq Hu (q & Eq & ->). rewrite Eq in Hq. lia.
Qed.

(** Apart from the confirmation of a negative quantity, nothing the bot
    does makes a balance negative. *)
Lemma credits_perform a w :
  no_negative_confirmation a ->
  credits_nonneg (store w) ->
  credits_nonneg (store (fst (perform a w))).
Proof.
  intros Ha Hs.
  destruct (perform_transition a w) as [| |nu Hn|nu v Hn Hc|tid u v Hu Hc].
  - exact Hs.
  - exact Hs.
  - destruct Hn as (_ & _ & H0). apply credits_insert_user; [exact Hs | lia].
  - destruct Hn as (_ & _ & H0).
    apply credits_set; [apply credits_insert_user; [exact Hs | lia]|].
    apply (credited_nonneg a nu v Ha); [lia | exact Hc].
  - apply credits_set; [exact Hs|].
    apply (credited_nonneg a u v Ha); [|exact Hc].
    exact (found_user_credits _ _ _ Hs Hu).
Qed.

Lemma credits_run acts : forall w,
  Forall no_negative_confirmation acts ->
  credits_nonneg (store w) ->
  credits_nonneg (store (run acts w)).
Proof.
  induction acts as [|a acts IH]; intros w Hall Hs; cbn; [exact Hs|].
  inversion Hall as [|? ? Ha Hrest]; subst.
  apply IH; [exact Hrest|]. now apply credits_perform.
Qed.

(** X23. Balances along a history.  Along every history of the bot from
    the empty store in which no confirmation carries a negative quantity,
    no stored balance is negative, whatever calls fail on the way: the
    free grant and the credit of a confirmation are the only writes of a
    balance, and neither overdraws. *)
Theorem balances_stay_non_negative acts :
  Forall no_negative_confirmation acts ->
  forall u, In u (users (store (run acts (initial_world empty_store)))) ->
    0 <= User.available_audits u.
Proof.
  intros Hall.
  apply (credits_run acts (initial_world empty_store) Hall).
  intros u [].
Qed.

Lemma balances_stay_non_negative_witness :
  Forall no_negative_confirmation a_purchase_and_a_job
  /\ forall u,
       In u (users (store (run a_purchase_and_a_job
                             (initial_world empty_store)))) ->
       0 <= User.available_audits u.
Proof.
  assert (H : Forall no_negative_confirmation a_purchase_and_a_job).
  { repeat constructor. vm_compute. discriminate. }
  split; [exact H|].
  exact (balances_stay_non_negative a_purchase_and_a_job H).
Defined.

(* ================================================================== *)
(** * Keys of users *)
(* ================================================================== *)

Lemma unique_set_credits s uid v :
  users_unique s -> users_unique (apply_write s (SetAvailableAudits uid v)).
Proof.
  intros (Ht & Hi & Hb). unfold users_unique, apply_write. cbn.
  rewrite !map_map.
  rewrite (map_ext _ User.telegram_id)
    by (intros u; now destruct (User.id u =? uid)).
  rewrite (map_ext (fun u => User.id (if User.id u =? uid
                                       then User.with_available_audits v u
                                       else u)) User.id)
    by (intros u; now destruct (User.id u =? uid)).
  split; [exact Ht|]. split; [exact Hi|].
  intros u Hin. apply in_map_iff in Hin. destruct Hin as (u0 & <- & Hin).
  specialize (Hb u0 Hin). now destruct (User.id u0 =? uid).
Qed.

Lemma NoDup_snoc {A} (l : list A) (x : A) :
  NoDup l -> ~ In x l -> NoDup (l ++ [x]).
Proof.
  intros Hl Hx. induction Hl as [|y l Hy Hl IH]; cbn.
  - constructor; [intros [] | constructor].
  - constructor.
    + intros Hin. apply in_app_or in Hin. destruct Hin as [Hin|[->|[]]].
      * now apply Hy.
      * apply Hx. now left.
    + apply IH. intros Hin. apply Hx. now right.
Qed.

Lemma unique_insert_user s nu :
  users_unique s -> fresh_user s nu ->
  users_unique (apply_write s (InsertUser nu)).
Proof.
  intros (Ht & Hi & Hb) (Hn & Hid & _). unfold users_unique, apply_write. cbn.
  rewrite !map_app. cbn. split; [|split].
  - apply NoDup_snoc; [exact Ht|]. intros Hin.
    apply in_map_iff in Hin. destruct Hin as (u & Hu & Hin).
    unfold find_user_by_telegram_id in Hn.
    pose proof (find_none _ _ Hn u Hin) as H. cbn in H.
    rewrite Hu, Z.eqb_refl in H. discriminate H.
  - apply NoDup_snoc; [exact Hi|]. intros Hin.
    apply in_map_iff in Hin. destruct Hin as (u & Hu & Hin).
    specialize (Hb u Hin). lia.
  - intros u Hin. apply in_app_or in Hin. destruct Hin as [Hin|[<-|[]]].
    + specialize (Hb u Hin). lia.
    + lia.
Qed.

Lemma unique_perform a w :
  users_unique (store w) -> users_unique (store (fst (perform a w))).
Proof.
  intros Hs.
  destruct (perform_transition a w) as [| |nu Hn|nu v Hn _|tid u v _ _].
  - exact Hs.
  - exact Hs.
  - now apply unique_insert_user.
  - now apply unique_set_credits, unique_insert_user.
  - now apply unique_set_credits.
Qed.

Lemma unique_run acts : forall w,
  users_unique (store w) -> users_unique (store (run acts w)).
Proof.
  induction acts as [|a acts IH]; intros w Hs; cbn; [exact Hs|].
  apply IH. now apply unique_perform.
Qed.

Lemma users_unique_empty : users_unique empty_store.
Proof. repeat split; cbn; try constructor. intros u []. Qed.

Lemma find_unique {A} (key : A -> Z) (l : list A) (x : A) :
  NoDup (map key l) -> In x l ->
  find (fun y => key y =? key x) l = Some x.
Proof.
  induction l as [|y l IH]; intros Hn Hin; [destruct Hin|].
  cbn in Hn. inversion Hn as [|? ? Hy Hl]; subst. cbn.
  destruct Hin as [->|Hin].
  - now rewrite Z.eqb_refl.
  - destruct (key y =? key x) eqn:E; [|now apply IH].
    apply Z.eqb_eq in E. exfalso. apply Hy. rewrite E.
    now apply in_map.
Qed.

(** In a store with unique keys, the row found by Telegram id is the row
    found by its own primary key. *)
Lemma unique_lookup_by_id s tid u :
  users_unique s ->
  find_user_by_telegram_id s tid = Some u ->
  find_user s (User.id u) = Some u.
Proof.
  intros (_ & Hi & _) Hf. unfold find_user_by_telegram_id in Hf.
  apply find_some in Hf. destruct Hf as [Hin _].
  unfold find_user. now apply (find_unique User.id).
Qed.

(** X16. One row per Telegram user.  Along every history of the bot from
    the empty store, no two user rows share a Telegram id or a primary
    key; so the row found by a Telegram id is the one found by its own
    key, and every row of that Telegram id is that row. *)
Theorem one_row_per_telegram_user acts :
  let s := store (run acts (initial_world empty_store)) in
  NoDup (map User.telegram_id (users s))
  /\ NoDup (map User.id (users s))
  /\ forall tid u,
       find_user_by_telegram_id s tid = Some u ->
       find_user s (User.id u) = Some u
       /\ forall u', In u' (users s) -> User.telegram_id u' = tid -> u' = u.
Proof.
  pose proof (unique_run acts (initial_world empty_store) users_unique_empty)
    as Hu.
  cbn zeta. split; [apply Hu|]. split; [apply Hu|].
  intros tid u Hf. split; [now apply (unique_lookup_by_id _ tid)|].
  intros u' Hin' Htid'.
  destruct Hu as (Ht & _ & _).
  pose proof (found_by_telegram_id _ _ _ Hf) as Htid.
  unfold find_user_by_telegram_id in Hf.
  pose proof (find_some _ _ Hf) as [Hin _].
  pose proof (find_unique User.telegram_id _ u' Ht Hin') as H1.
  pose proof (find_unique User.telegram_id _ u Ht Hin) as H2.
  rewrite Htid' in H1. rewrite Htid in H2. congruence.
Qed.
